(** * A shallow embedding of the HTTP client facade (src/httpc.c)

    The development follows the C file function by function.  C strings
    are the Rocq strings of their characters before the terminator, a
    [long] and an [int] are integers of [Z] with the cast written out
    where the source narrows, byte buffers ([ibuf], [region]) are lists
    of bytes holding the used part, and a function returning [-1] after
    [diag_set] is a [Fail] carrying the diagnostic. *)

From Stdlib Require Import ZArith List String Ascii Bool Lia QArith.
Import ListNotations.

Local Open Scope string_scope.
Local Open Scope list_scope.
Local Open Scope Z_scope.

(** ** Integers of the C side *)

Module CInt.

Definition INT_MIN : Z := - 2 ^ 31.
Definition INT_MAX : Z := 2 ^ 31 - 1.
(** LP64: a [long] has 64 bits. *)
Definition LONG_MIN : Z := - 2 ^ 63.
Definition LONG_MAX : Z := 2 ^ 63 - 1.

(** The cast [(int) v] of a [long]: two's complement wrap-around. *)
Definition to_int (v : Z) : Z := (v + 2 ^ 31) mod 2 ^ 32 - 2 ^ 31.

Definition fits_int (v : Z) : Prop := INT_MIN <= v <= INT_MAX.
Definition fits_long (v : Z) : Prop := LONG_MIN <= v <= LONG_MAX.

(** Saturation of [strtol] on overflow. *)
Definition clamp_long (v : Z) : Z :=
  if v <? LONG_MIN then LONG_MIN
  else if LONG_MAX <? v then LONG_MAX
  else v.

End CInt.

(** ** The C string functions the client calls *)

Module CString.

Definition char_code (c : ascii) : Z := Z.of_N (N_of_ascii c).

(** [strcmp]: zero exactly on equal strings, else the difference of
    the first two characters that differ. *)
Fixpoint strcmp (a b : string) : Z :=
  match a, b with
  | EmptyString, EmptyString => 0
  | EmptyString, String d _ => - char_code d
  | String c _, EmptyString => char_code c
  | String c a', String d b' =>
      if Ascii.eqb c d then strcmp a' b' else char_code c - char_code d
  end.

Definition is_upper (c : ascii) : bool :=
  (65 <=? char_code c) && (char_code c <=? 90).

(** [tolower] in the C locale. *)
Definition tolower (c : ascii) : ascii :=
  if is_upper c then ascii_of_N (N_of_ascii c + 32) else c.

(** [strncasecmp]: at most [n] characters are compared, ignoring case. *)
Fixpoint strncasecmp (a b : string) (n : nat) : Z :=
  match n with
  | O => 0
  | S n' =>
      match a, b with
      | EmptyString, EmptyString => 0
      | EmptyString, String d _ => - char_code (tolower d)
      | String c _, EmptyString => char_code (tolower c)
      | String c a', String d b' =>
          if Ascii.eqb (tolower c) (tolower d)
          then strncasecmp a' b' n'
          else char_code (tolower c) - char_code (tolower d)
      end
  end.

Definition strlen (s : string) : nat := String.length s.

(** [isspace] in the C locale: space, \t, \n, \v, \f, \r. *)
Definition isspace (c : ascii) : bool :=
  (char_code c =? 32) || ((9 <=? char_code c) && (char_code c <=? 13)).

Definition digit_val (c : ascii) : option Z :=
  if (48 <=? char_code c) && (char_code c <=? 57) then Some (char_code c - 48) else None.

Fixpoint skip_spaces (s : string) : string :=
  match s with
  | String c r => if isspace c then skip_spaces r else s
  | EmptyString => s
  end.

(** The digits at the head of [s], accumulated onto [acc]; what
    follows them is returned with the value. *)
Fixpoint scan_digits (s : string) (acc : Z) : Z * string :=
  match s with
  | String c r =>
      match digit_val c with
      | Some d => scan_digits r (10 * acc + d)
      | None => (acc, s)
      end
  | EmptyString => (acc, s)
  end.

Definition starts_with_digit (s : string) : bool :=
  match s with
  | String c _ => match digit_val c with Some _ => true | None => false end
  | EmptyString => false
  end.

(** [strtol (nptr, &end, 10)]: the value and the string at [end].
    White space is skipped, one sign is taken, the digits are read
    and the value saturates at the bounds of [long]; when there is
    no digit the value is [0] and [end] is [nptr] itself. *)
Definition strtol (nptr : string) : Z * string :=
  let s1 := skip_spaces nptr in
  let '(neg, s2) :=
    match s1 with
    | String c r =>
        if Ascii.eqb c "-" then (true, r)
        else if Ascii.eqb c "+" then (false, r)
        else (false, s1)
    | EmptyString => (false, s1)
    end in
  if starts_with_digit s2 then
    let '(v, rest) := scan_digits s2 0 in
    (CInt.clamp_long (if neg then - v else v), rest)
  else (0, nptr).

(** [*end == '\0'] *)
Definition at_terminator (s : string) : bool :=
  match s with
  | EmptyString => true
  | String _ _ => false
  end.

(** A C string holds no terminator among its characters. *)
Fixpoint cstring (s : string) : bool :=
  match s with
  | EmptyString => true
  | String c r => negb (Ascii.eqb c Ascii.zero) && cstring r
  end.

Definition digit_char (d : Z) : ascii := ascii_of_N (Z.to_N (48 + d)).

(** Decimal digits of a non-negative number, most significant first;
    twenty digits cover every 64-bit value. *)
Fixpoint dec_digits (fuel : nat) (n : Z) (acc : string) : string :=
  match fuel with
  | O => acc
  | S f =>
      let acc' := String (digit_char (n mod 10)) acc in
      if n / 10 =? 0 then acc' else dec_digits f (n / 10) acc'
  end.

(** The conversions [%ld] and [%zu] of [printf]. *)
Definition fmt_ld (n : Z) : string :=
  if n <? 0 then String "-" (dec_digits 20 (- n) "") else dec_digits 20 n "".

Definition fmt_zu (n : Z) : string := dec_digits 20 n "".

End CString.

Import CString.

Definition byte := Byte.byte.
Definition bytes := list byte.

(** ** Data model *)

(** Diagnostics left by [diag_set] before a function returns [-1] (or
    [NULL]).  [EngineError] stands for whatever the transfer engine's
    wrapper (curl.c) has set itself. *)
Inductive diag : Type :=
| OutOfMemory
| IllegalParams (msg : string)
| TimedOut
| FiberIsCancelled
| SystemError (errno : Z) (msg : string)
| ErrorInjection
| EngineError.

Inductive result (A : Type) : Type :=
| Ok (a : A)
| Fail (d : diag).
Arguments Ok {A} a.
Arguments Fail {A} d.

(** The terminal codes of a transfer that the client tells apart; every
    other [CURLcode] is [CURLE_OTHER] with its number. *)
Inductive CURLcode : Type :=
| CURLE_OK
| CURLE_SSL_CACERT
| CURLE_PEER_FAILED_VERIFICATION
| CURLE_OPERATION_TIMEDOUT
| CURLE_GOT_NOTHING
| CURLE_COULDNT_RESOLVE_PROXY
| CURLE_COULDNT_RESOLVE_HOST
| CURLE_COULDNT_CONNECT
| CURLE_WRITE_ERROR
| CURLE_BAD_CONTENT_ENCODING
| CURLE_OUT_OF_MEMORY
| CURLE_OTHER (n : Z).

Inductive CURLMcode : Type :=
| CURLM_OK
| CURLM_FAILED (n : Z).

Inductive callback : Type :=
| curl_easy_io_read_cb_fn
| curl_easy_write_cb_fn
| curl_easy_header_cb_fn.

(** What the client asks of an easy handle, in the order of the calls:
    the options of [curl_easy_setopt] with their arguments, and the
    resume request of [curl_easy_pause]. *)
Inductive curl_call : Type :=
| CURLOPT_HTTPGET (v : Z)
| CURLOPT_NOBODY (v : Z)
| CURLOPT_POST (v : Z)
| CURLOPT_POSTFIELDS (body : bytes)
| CURLOPT_POSTFIELDSIZE (n : Z)
| CURLOPT_CUSTOMREQUEST (verb : string)
| CURLOPT_URL (url : string)
| CURLOPT_FOLLOWLOCATION (v : Z)
| CURLOPT_SSL_VERIFYPEER (v : Z)
| CURLOPT_WRITEFUNCTION (f : callback)
| CURLOPT_HEADERFUNCTION (f : callback)
| CURLOPT_READFUNCTION (f : callback)
| CURLOPT_NOPROGRESS (v : Z)
| CURLOPT_NOSIGNAL (v : Z)
| CURLOPT_TCP_KEEPALIVE (v : Z)
| CURLOPT_TCP_KEEPIDLE (v : Z)
| CURLOPT_TCP_KEEPINTVL (v : Z)
| CURLOPT_READDATA
| CURLOPT_UPLOAD (v : Z)
| CURLOPT_INFILESIZE (n : Z)
| CURLOPT_WRITEDATA
| CURLOPT_HEADERDATA
| CURLOPT_PRIVATE
| CURLOPT_HTTPHEADER (hs : list string)
| CURLPAUSE_SEND_CONT.

(** [struct curl_request]: the easy handle, the transfer flag and the
    terminal code, which the engine writes, and whether a done handler
    is installed. *)
Record curl_request : Type := mk_curl_request {
  easy : list curl_call;
  in_progress : bool;
  code : CURLcode;
  done_handler : bool
}.

Inductive cond_id : Type := io_send_cond | io_recv_cond.

(** [struct httpc_request]. *)
Record httpc_request : Type := mk_request {
  headers : list string;
  send : bytes;
  curl_req : curl_request;
  status : Z;
  redirect_count : Z;
  reason : option string;
  resp_headers : bytes;
  recv : bytes;
  keep_alive_timeout : Z;
  set_accept_header : bool;
  set_connection_header : bool;
  set_keep_alive_header : bool;
  content_length : Z;
  io : bool;
  io_recv : bytes;
  io_send : bool;
  io_send_closed : bool;
  io_headers_cond : option cond_id
}.

(** [struct httpc_stat], the counters of an environment. *)
Record httpc_stat : Type := mk_stat {
  total_requests : Z;
  http_200_responses : Z;
  http_other_responses : Z;
  failed_requests : Z
}.

Record httpc_env : Type := mk_env { stat : httpc_stat }.

(** Field updates. *)
Definition with_easy (e : list curl_call) (c : curl_request) : curl_request :=
  mk_curl_request e (in_progress c) (code c) (done_handler c).
Definition with_in_progress (b : bool) (c : curl_request) : curl_request :=
  mk_curl_request (easy c) b (code c) (done_handler c).
Definition with_code (k : CURLcode) (c : curl_request) : curl_request :=
  mk_curl_request (easy c) (in_progress c) k (done_handler c).
Definition with_done_handler (b : bool) (c : curl_request) : curl_request :=
  mk_curl_request (easy c) (in_progress c) (code c) b.

Definition with_headers (v : list string) (r : httpc_request) :=
  mk_request v (send r) (curl_req r) (status r) (redirect_count r) (reason r)
    (resp_headers r) (recv r) (keep_alive_timeout r) (set_accept_header r)
    (set_connection_header r) (set_keep_alive_header r) (content_length r)
    (io r) (io_recv r) (io_send r) (io_send_closed r) (io_headers_cond r).
Definition with_send (v : bytes) (r : httpc_request) :=
  mk_request (headers r) v (curl_req r) (status r) (redirect_count r) (reason r)
    (resp_headers r) (recv r) (keep_alive_timeout r) (set_accept_header r)
    (set_connection_header r) (set_keep_alive_header r) (content_length r)
    (io r) (io_recv r) (io_send r) (io_send_closed r) (io_headers_cond r).
Definition with_curl_req (v : curl_request) (r : httpc_request) :=
  mk_request (headers r) (send r) v (status r) (redirect_count r) (reason r)
    (resp_headers r) (recv r) (keep_alive_timeout r) (set_accept_header r)
    (set_connection_header r) (set_keep_alive_header r) (content_length r)
    (io r) (io_recv r) (io_send r) (io_send_closed r) (io_headers_cond r).
Definition with_status (v : Z) (r : httpc_request) :=
  mk_request (headers r) (send r) (curl_req r) v (redirect_count r) (reason r)
    (resp_headers r) (recv r) (keep_alive_timeout r) (set_accept_header r)
    (set_connection_header r) (set_keep_alive_header r) (content_length r)
    (io r) (io_recv r) (io_send r) (io_send_closed r) (io_headers_cond r).
Definition with_redirect_count (v : Z) (r : httpc_request) :=
  mk_request (headers r) (send r) (curl_req r) (status r) v (reason r)
    (resp_headers r) (recv r) (keep_alive_timeout r) (set_accept_header r)
    (set_connection_header r) (set_keep_alive_header r) (content_length r)
    (io r) (io_recv r) (io_send r) (io_send_closed r) (io_headers_cond r).
Definition with_reason (v : option string) (r : httpc_request) :=
  mk_request (headers r) (send r) (curl_req r) (status r) (redirect_count r) v
    (resp_headers r) (recv r) (keep_alive_timeout r) (set_accept_header r)
    (set_connection_header r) (set_keep_alive_header r) (content_length r)
    (io r) (io_recv r) (io_send r) (io_send_closed r) (io_headers_cond r).
Definition with_resp_headers (v : bytes) (r : httpc_request) :=
  mk_request (headers r) (send r) (curl_req r) (status r) (redirect_count r)
    (reason r) v (recv r) (keep_alive_timeout r) (set_accept_header r)
    (set_connection_header r) (set_keep_alive_header r) (content_length r)
    (io r) (io_recv r) (io_send r) (io_send_closed r) (io_headers_cond r).
Definition with_recv (v : bytes) (r : httpc_request) :=
  mk_request (headers r) (send r) (curl_req r) (status r) (redirect_count r)
    (reason r) (resp_headers r) v (keep_alive_timeout r) (set_accept_header r)
    (set_connection_header r) (set_keep_alive_header r) (content_length r)
    (io r) (io_recv r) (io_send r) (io_send_closed r) (io_headers_cond r).
Definition with_keep_alive_timeout (v : Z) (r : httpc_request) :=
  mk_request (headers r) (send r) (curl_req r) (status r) (redirect_count r)
    (reason r) (resp_headers r) (recv r) v (set_accept_header r)
    (set_connection_header r) (set_keep_alive_header r) (content_length r)
    (io r) (io_recv r) (io_send r) (io_send_closed r) (io_headers_cond r).
Definition with_set_accept_header (v : bool) (r : httpc_request) :=
  mk_request (headers r) (send r) (curl_req r) (status r) (redirect_count r)
    (reason r) (resp_headers r) (recv r) (keep_alive_timeout r) v
    (set_connection_header r) (set_keep_alive_header r) (content_length r)
    (io r) (io_recv r) (io_send r) (io_send_closed r) (io_headers_cond r).
Definition with_set_connection_header (v : bool) (r : httpc_request) :=
  mk_request (headers r) (send r) (curl_req r) (status r) (redirect_count r)
    (reason r) (resp_headers r) (recv r) (keep_alive_timeout r)
    (set_accept_header r) v (set_keep_alive_header r) (content_length r)
    (io r) (io_recv r) (io_send r) (io_send_closed r) (io_headers_cond r).
Definition with_set_keep_alive_header (v : bool) (r : httpc_request) :=
  mk_request (headers r) (send r) (curl_req r) (status r) (redirect_count r)
    (reason r) (resp_headers r) (recv r) (keep_alive_timeout r)
    (set_accept_header r) (set_connection_header r) v (content_length r)
    (io r) (io_recv r) (io_send r) (io_send_closed r) (io_headers_cond r).
Definition with_content_length (v : Z) (r : httpc_request) :=
  mk_request (headers r) (send r) (curl_req r) (status r) (redirect_count r)
    (reason r) (resp_headers r) (recv r) (keep_alive_timeout r)
    (set_accept_header r) (set_connection_header r) (set_keep_alive_header r) v
    (io r) (io_recv r) (io_send r) (io_send_closed r) (io_headers_cond r).
Definition with_io_send_closed (v : bool) (r : httpc_request) :=
  mk_request (headers r) (send r) (curl_req r) (status r) (redirect_count r)
    (reason r) (resp_headers r) (recv r) (keep_alive_timeout r)
    (set_accept_header r) (set_connection_header r) (set_keep_alive_header r)
    (content_length r) (io r) (io_recv r) (io_send r) v (io_headers_cond r).

(** [curl_easy_setopt] and [curl_easy_pause] on the request's handle. *)
Definition curl_easy_call (c : curl_call) (r : httpc_request) : httpc_request :=
  with_curl_req (with_easy (easy (curl_req r) ++ [c]) (curl_req r)) r.

Fixpoint curl_easy_calls (cs : list curl_call) (r : httpc_request)
  : httpc_request :=
  match cs with
  | [] => r
  | c :: cs' => curl_easy_calls cs' (curl_easy_call c r)
  end.

(** ** Request creation: [httpc_request_new] *)

(** The request after [memset] to zero. *)
Definition request_zero : httpc_request :=
  mk_request [] [] (mk_curl_request [] false CURLE_OK false) 0 0 None [] []
    0 false false false 0 false [] false false None.

(** The options every request gets after the method has been mapped. *)
Definition common_setup (url : string) : list curl_call :=
  [ CURLOPT_URL url;
    CURLOPT_FOLLOWLOCATION 1;
    CURLOPT_SSL_VERIFYPEER 1;
    CURLOPT_WRITEFUNCTION curl_easy_write_cb_fn;
    CURLOPT_HEADERFUNCTION curl_easy_header_cb_fn;
    CURLOPT_NOPROGRESS 1;
    CURLOPT_NOSIGNAL 1 ].

(** The calls of the third branch of the method test. *)
Definition post_setup (method : string) : list curl_call :=
  [ CURLOPT_POST 1;
    CURLOPT_POSTFIELDS [];
    CURLOPT_POSTFIELDSIZE 0;
    CURLOPT_CUSTOMREQUEST method ].

(** [pool_ok] and [curl_ok] tell whether [mempool_alloc] and
    [curl_request_create] succeed.  The third test of the method reads
    [strcmp(method, "PATCH")] with no comparison to zero, as in the
    source: it holds when [method] differs from ["PATCH"]. *)
Definition httpc_request_new (pool_ok curl_ok : bool) (method url : string)
  : result httpc_request :=
  if negb pool_ok then Fail OutOfMemory
  else
    let req := request_zero in
    let req := with_set_connection_header true req in
    let req := with_set_keep_alive_header true req in
    let req := with_content_length (-1) req in
    if negb curl_ok then Fail EngineError
    else
      let req :=
        if strcmp method "GET" =? 0 then
          curl_easy_call (CURLOPT_HTTPGET 1) req
        else if strcmp method "HEAD" =? 0 then
          curl_easy_call (CURLOPT_NOBODY 1) req
        else if (strcmp method "POST" =? 0)
                || (strcmp method "PUT" =? 0)
                || negb (strcmp method "PATCH" =? 0) then
          with_set_accept_header true
            (curl_easy_calls (post_setup method) req)
        else
          curl_easy_call (CURLOPT_CUSTOMREQUEST method) req in
      let req := curl_easy_calls (common_setup url) req in
      Ok (with_send [] req).

(** The method table as the specification words it, to compare with. *)
Module MethodSpec.

Definition is_post_shaped (method : string) : bool :=
  String.eqb method "POST" || String.eqb method "PUT"
  || String.eqb method "PATCH".

Definition method_setup (method : string) : list curl_call :=
  if String.eqb method "GET" then [CURLOPT_HTTPGET 1]
  else if String.eqb method "HEAD" then [CURLOPT_NOBODY 1]
  else if is_post_shaped method then post_setup method
  else [CURLOPT_CUSTOMREQUEST method].

Definition accept_flag (method : string) : bool := is_post_shaped method.

End MethodSpec.

(** ** Outgoing headers: [httpc_set_header] and its callers *)

Definition MAX_HEADER_LEN : Z := 8192.

Definition HTTP_ACCEPT_HEADER : string := "Accept:".
Definition HTTP_CONNECTION_HEADER : string := "Connection:".
Definition HTTP_CONTENT_LENGTH_HEADER : string := "Content-Length:".
Definition HTTP_KEEP_ALIVE_HEADER : string := "Keep-Alive:".

(** [strncasecmp(header, key, strlen(key)) == 0] *)
Definition has_key (header key : string) : bool :=
  strncasecmp header key (strlen key) =? 0.

(** [header + n] *)
Fixpoint advance (n : nat) (s : string) : string :=
  match n, s with
  | S n', String _ r => advance n' r
  | _, _ => s
  end.

Definition too_large : diag := IllegalParams "header is too large".
Definition bad_content_length : diag :=
  IllegalParams "Content-Length header value must be a non-negative integer".

(** [line] is the text that [vsnprintf] formats from [fmt] and the
    arguments, and [rc] its length; [slist_ok] tells whether
    [curl_slist_append] finds memory.  The result pairs what the call
    returns with the request it leaves. *)
Definition httpc_set_header (slist_ok : bool) (line : string)
    (req : httpc_request) : result Z * httpc_request :=
  let rc := Z.of_nat (String.length line) in
  if rc >? MAX_HEADER_LEN then (Fail too_large, req)
  else
    let header := line in
    let flagged : result Z * httpc_request :=
      if has_key header HTTP_ACCEPT_HEADER then
        (Ok 0, with_set_accept_header false req)
      else if has_key header HTTP_CONNECTION_HEADER then
        (Ok 0, with_set_connection_header false req)
      else if has_key header HTTP_CONTENT_LENGTH_HEADER then
        let len := advance (strlen HTTP_CONTENT_LENGTH_HEADER) header in
        let '(length, end_) := strtol len in
        if negb (at_terminator end_) || (length <? 0) then
          (Fail bad_content_length, req)
        else (Ok 0, with_content_length length req)
      else if has_key header HTTP_KEEP_ALIVE_HEADER then
        (Ok 0, with_set_keep_alive_header false req)
      else (Ok 0, req) in
    match flagged with
    | (Fail d, req') => (Fail d, req')
    | (Ok _, req') =>
        if slist_ok then (Ok 0, with_headers (headers req' ++ [header]) req')
        else (Fail OutOfMemory, req')
    end.

(** [body] holds the [size] bytes the caller passes; [ibuf_ok] tells
    whether [ibuf_alloc] finds memory. *)
Definition httpc_set_body (ibuf_ok slist_ok : bool) (body : bytes)
    (req : httpc_request) : result Z * httpc_request :=
  let size := Z.of_nat (List.length body) in
  let req := with_send [] req in
  if negb ibuf_ok then (Fail OutOfMemory, req)
  else
    let req := with_send body req in
    let req := curl_easy_call (CURLOPT_POSTFIELDS (send req)) req in
    let req := curl_easy_call (CURLOPT_POSTFIELDSIZE size) req in
    match httpc_set_header slist_ok ("Content-Length: " ++ fmt_zu size) req with
    | (Ok _, req') => (Ok 0, req')
    | (Fail d, req') => (Fail d, req')
    end.

(** The branch for libcurl 7.25.0 and later. *)
Definition httpc_set_keepalive (idle interval : Z) (req : httpc_request)
  : httpc_request :=
  if (idle >? 0) && (interval >? 0) then
    let req := curl_easy_calls
                 [ CURLOPT_TCP_KEEPALIVE 1;
                   CURLOPT_TCP_KEEPIDLE idle;
                   CURLOPT_TCP_KEEPINTVL interval ] req in
    with_keep_alive_timeout idle req
  else req.

Definition with_io (v : bool) (r : httpc_request) :=
  mk_request (headers r) (send r) (curl_req r) (status r) (redirect_count r)
    (reason r) (resp_headers r) (recv r) (keep_alive_timeout r)
    (set_accept_header r) (set_connection_header r) (set_keep_alive_header r)
    (content_length r) v (io_recv r) (io_send r) (io_send_closed r)
    (io_headers_cond r).
Definition with_io_recv (v : bytes) (r : httpc_request) :=
  mk_request (headers r) (send r) (curl_req r) (status r) (redirect_count r)
    (reason r) (resp_headers r) (recv r) (keep_alive_timeout r)
    (set_accept_header r) (set_connection_header r) (set_keep_alive_header r)
    (content_length r) (io r) v (io_send r) (io_send_closed r)
    (io_headers_cond r).
Definition with_io_send (v : bool) (r : httpc_request) :=
  mk_request (headers r) (send r) (curl_req r) (status r) (redirect_count r)
    (reason r) (resp_headers r) (recv r) (keep_alive_timeout r)
    (set_accept_header r) (set_connection_header r) (set_keep_alive_header r)
    (content_length r) (io r) (io_recv r) v (io_send_closed r)
    (io_headers_cond r).
Definition with_io_headers_cond (v : option cond_id) (r : httpc_request) :=
  mk_request (headers r) (send r) (curl_req r) (status r) (redirect_count r)
    (reason r) (resp_headers r) (recv r) (keep_alive_timeout r)
    (set_accept_header r) (set_connection_header r) (set_keep_alive_header r)
    (content_length r) (io r) (io_recv r) (io_send r) (io_send_closed r) v.

(** ** Transfer adapter: the callbacks the engine invokes *)

(** A callback returns, or stops the process in a failed [assert]. *)
Inductive outcome (A : Type) : Type :=
| Returned (a : A)
| AssertionFailed.
Arguments Returned {A} a.
Arguments AssertionFailed {A}.

Definition CURL_READFUNC_PAUSE : Z := 0x10000001.

Definition ibuf_used (b : bytes) : Z := Z.of_nat (List.length b).
Definition region_used (b : bytes) : Z := Z.of_nat (List.length b).

(** [curl_easy_io_read_cb]: the count returned, the bytes copied into
    the engine's buffer of [buffer_size] bytes, the request left.  The
    broadcasts on [io_send_cond] show as wake-ups of the waiting task
    (see [yield] below). *)
Definition curl_easy_io_read_cb (buffer_size : Z) (req : httpc_request)
  : Z * bytes * httpc_request :=
  let ibuf_len := ibuf_used (send req) in
  if ibuf_len =? 0 then
    if io_send_closed req then (0, [], req)
    else (CURL_READFUNC_PAUSE, [], req)
  else
    let read_len := if ibuf_len <? buffer_size then ibuf_len else buffer_size in
    let n := Z.to_nat read_len in
    (read_len, firstn n (send req), with_send (skipn n (send req)) req).

(** [curl_easy_write_cb] on the chunk [ptr]; [region_ok] tells whether
    [region_alloc] finds memory. *)
Definition curl_easy_write_cb (region_ok : bool) (ptr : bytes)
    (req : httpc_request) : Z * httpc_request :=
  let nbytes := Z.of_nat (List.length ptr) in
  if negb region_ok then (0, req)
  else (nbytes, with_recv (recv req ++ ptr) req).

(** [curl_easy_header_cb] on the chunk [buffer] when the engine reports
    [engine_count] for [CURLINFO_REDIRECT_COUNT].  [ndebug] tells
    whether [assert] is compiled out. *)
Definition curl_easy_header_cb (ndebug region_ok : bool) (engine_count : Z)
    (buffer : bytes) (req : httpc_request) : outcome (Z * httpc_request) :=
  let nbytes := Z.of_nat (List.length buffer) in
  let redirect_count_ := engine_count in
  let advanced : outcome httpc_request :=
    if redirect_count_ >? redirect_count req then
      if negb ndebug && negb (redirect_count_ =? redirect_count req + 1) then
        AssertionFailed
      else
        Returned (with_resp_headers [] (with_redirect_count redirect_count_ req))
    else Returned req in
  match advanced with
  | AssertionFailed => AssertionFailed
  | Returned req =>
      if negb region_ok then Returned (0, req)
      else Returned (nbytes, with_resp_headers (resp_headers req ++ buffer) req)
  end.

(** [httpc_curl_done_handler] *)
Definition httpc_curl_done_handler (req : httpc_request) : httpc_request :=
  with_io_send_closed true req.

(** [httpc_set_io] *)
Definition httpc_set_io (method : string) (req : httpc_request)
  : result Z * httpc_request :=
  if io req then (Fail (IllegalParams "io: request is already io"), req)
  else
    let req := with_io true req in
    let req := with_io_recv [] req in
    let req :=
      if (strcmp method "POST" =? 0) || (strcmp method "PUT" =? 0)
         || (strcmp method "PATCH" =? 0) then
        let req := curl_easy_calls
                     [ CURLOPT_READDATA;
                       CURLOPT_READFUNCTION curl_easy_io_read_cb_fn;
                       CURLOPT_UPLOAD 1 ] req in
        let req := if content_length req >=? 0
                   then curl_easy_call (CURLOPT_INFILESIZE (content_length req)) req
                   else req in
        with_io_headers_cond (Some io_send_cond)
          (with_io_send_closed false (with_io_send true req))
      else
        with_io_headers_cond (Some io_recv_cond)
          (with_io_send_closed true (with_io_send false req)) in
    (Ok 0, with_curl_req (with_done_handler true (curl_req req)) req).

(** ** The engine and the scheduler as the client sees them *)

(** What the engine does to a request between two moments at which the
    task runs. *)
Inductive engine_event : Type :=
| EvHeader (region_ok : bool) (engine_count : Z) (chunk : bytes)
| EvBody (region_ok : bool) (chunk : bytes)
| EvRead (buffer_size : Z)
| EvDone (c : CURLcode).

(** Modelled from the spec: the engine's completion path (curl.c) is
    not among the sources.  On the terminal state the transfer stops
    being in progress, the terminal code is stored, and the done
    handler, when one is installed, is invoked. *)
Definition engine_done (c : CURLcode) (req : httpc_request) : httpc_request :=
  let cr := with_code c (with_in_progress false (curl_req req)) in
  let req := with_curl_req cr req in
  if done_handler cr then httpc_curl_done_handler req else req.

Definition engine_step (ndebug : bool) (e : engine_event)
    (req : httpc_request) : outcome httpc_request :=
  match e with
  | EvHeader ok n chunk =>
      match curl_easy_header_cb ndebug ok n chunk req with
      | Returned (_, req') => Returned req'
      | AssertionFailed => AssertionFailed
      end
  | EvBody ok chunk => Returned (snd (curl_easy_write_cb ok chunk req))
  | EvRead size => Returned (snd (curl_easy_io_read_cb size req))
  | EvDone c => Returned (engine_done c req)
  end.

Fixpoint engine_run (ndebug : bool) (es : list engine_event)
    (req : httpc_request) : outcome httpc_request :=
  match es with
  | [] => Returned req
  | e :: es' =>
      match engine_step ndebug e req with
      | Returned req' => engine_run ndebug es' req'
      | AssertionFailed => AssertionFailed
      end
  end.

(** How a wait on a condition variable ends. *)
Inductive wake : Type :=
| Signalled
| DeadlineExpired
| Cancelled.

(** One suspension of the task: what the engine did meanwhile and how
    the wait ended. *)
Record yield : Type := mk_yield {
  y_events : list engine_event;
  y_wake : wake
}.

(** Modelled from the spec: the condition variables (fiber_cond.c) are
    not among the sources.  A wait with a deadline returns [0] when
    signalled; deadline expiry surfaces as [TimedOut] and cancellation
    as an error, both returning [-1]. *)
Definition fiber_cond_wait_deadline (w : wake) : result Z :=
  match w with
  | Signalled => Ok 0
  | DeadlineExpired => Fail TimedOut
  | Cancelled => Fail FiberIsCancelled
  end.

Definition double : Type := Q.

(** [timeout > 0] *)
Definition positive (timeout : double) : bool := negb (Qle_bool timeout 0).

(** ** Streaming upload: [httpc_request_io_write] *)

Definition must_be_io : diag := IllegalParams "io: request must be io".
Definition no_body_to_send : diag :=
  IllegalParams "io: HTTP request method with no body to send".

(** The [while] loop that waits for the bytes left in [send] by an
    earlier call.  Each turn suspends the task twice, first with the
    deadline and then without one; [ys] lists the suspensions to come.
    [None] means that the call does not return: the task is not
    resumed, or the process stopped in a failed assertion of a
    callback.  [Ok n] is the exit of the loop with [ibuf_len = n]. *)
Fixpoint io_write_wait (ndebug : bool) (timeout : double) (ibuf_len : Z)
    (req : httpc_request) (ys : list yield) {struct ys}
  : option (result Z * httpc_request * list yield) :=
  if in_progress (curl_req req) && negb (ibuf_len =? 0) && positive timeout
  then
    match ys with
    | [] => None
    | y1 :: ys1 =>
        match engine_run ndebug (y_events y1) req with
        | AssertionFailed => None
        | Returned req1 =>
            match fiber_cond_wait_deadline (y_wake y1) with
            | Fail d => Some (Fail d, req1, ys1)
            | Ok _ =>
                match ys1 with
                | [] => None
                | y2 :: ys2 =>
                    match engine_run ndebug (y_events y2) req1 with
                    | AssertionFailed => None
                    | Returned req2 =>
                        io_write_wait ndebug timeout
                          (ibuf_used (send req2)) req2 ys2
                    end
                end
            end
        end
    end
  else Some (Ok ibuf_len, req, ys).

(** [ptr] holds the [len] bytes to write; a close is the empty list.
    The allocation in [send] is taken to succeed, as the source takes
    it. *)
Definition httpc_request_io_write (ndebug : bool) (ptr : bytes)
    (timeout : double) (req : httpc_request) (ys : list yield)
  : option (result Z * httpc_request * list yield) :=
  let len := Z.of_nat (List.length ptr) in
  if negb (io req) then Some (Fail must_be_io, req, ys)
  else if negb (io_send req) then Some (Fail no_body_to_send, req, ys)
  else if negb (in_progress (curl_req req)) || io_send_closed req then
    Some (Ok 0, req, ys)
  else
    match io_write_wait ndebug timeout (ibuf_used (send req)) req ys with
    | None => None
    | Some (Fail d, req, ys) => Some (Fail d, req, ys)
    | Some (Ok ibuf_len, req, ys) =>
        if negb (ibuf_len =? 0) then
          if in_progress (curl_req req) then Some (Fail TimedOut, req, ys)
          else Some (Ok 0, req, ys)
        else
          let req := if len >? 0 then with_send ptr (with_send [] req)
                     else with_io_send_closed true req in
          let req := curl_easy_call CURLPAUSE_SEND_CONT req in
          match ys with
          | [] => None
          | y :: ys' =>
              match engine_run ndebug (y_events y) req with
              | AssertionFailed => None
              | Returned req =>
                  if negb (ibuf_used (send req) =? 0) then
                    Some (Ok 0, with_send [] req, ys')
                  else Some (Ok len, req, ys')
              end
          end
    end.

(** ** Completion: [httpc_request_finish] *)

Definition with_stat (s : httpc_stat) (e : httpc_env) : httpc_env := mk_env s.

Definition incr_total (e : httpc_env) : httpc_env :=
  let s := stat e in
  mk_env (mk_stat (total_requests s + 1) (http_200_responses s)
            (http_other_responses s) (failed_requests s)).
Definition incr_http_200 (e : httpc_env) : httpc_env :=
  let s := stat e in
  mk_env (mk_stat (total_requests s) (http_200_responses s + 1)
            (http_other_responses s) (failed_requests s)).
Definition incr_http_other (e : httpc_env) : httpc_env :=
  let s := stat e in
  mk_env (mk_stat (total_requests s) (http_200_responses s)
            (http_other_responses s + 1) (failed_requests s)).
Definition incr_failed (e : httpc_env) : httpc_env :=
  let s := stat e in
  mk_env (mk_stat (total_requests s) (http_200_responses s)
            (http_other_responses s) (failed_requests s + 1)).

Definition EINVAL : Z := 22.

(** What the engine hands to one call of [httpc_request_finish]:
    the value [curl_request_finish] returns and the terminal code it
    leaves in the request, whether the error injection of the call is
    armed, and the answers of [curl_easy_getinfo]. *)
Record finish_world : Type := mk_finish_world {
  fw_mcode : CURLMcode;
  fw_code : CURLcode;
  fw_errinj : bool;
  fw_response_code : Z;
  fw_os_errno : Z
}.

Section Engine.

(** [curl_easy_strerror], a function of libcurl that always returns a
    string. *)
Variable curl_easy_strerror : CURLcode -> string.

(** Modelled from the spec: [curl_request_finish] (curl.c) is not
    among the sources.  It awaits the terminal state up to the
    deadline and leaves the request out of progress with its
    terminal code. *)
Definition curl_request_finish (w : finish_world) (req : httpc_request)
  : CURLMcode * httpc_request :=
  (fw_mcode w,
   with_curl_req (with_code (fw_code w)
                    (with_in_progress false (curl_req req))) req).

Definition classified (st : Z) (req : httpc_request) (env : httpc_env)
  : result Z * httpc_request * httpc_env :=
  (Ok 0,
   with_reason (Some (curl_easy_strerror (code (curl_req req))))
     (with_status st req),
   incr_failed env).

Definition httpc_request_finish (w : finish_world) (req : httpc_request)
    (env : httpc_env) : result Z * httpc_request * httpc_env :=
  match curl_request_finish w req with
  | (CURLM_FAILED _, req) => (Fail EngineError, req, env)
  | (CURLM_OK, req) =>
      if fw_errinj w then (Fail ErrorInjection, req, env)
      else
        match code (curl_req req) with
        | CURLE_OK =>
            let longval := fw_response_code w in
            let req := with_status (CInt.to_int longval) req in
            let req :=
              if (status req >=? 100) && (status req <? 400)
              then with_reason (Some "Ok") req
              else with_reason (Some "Unknown") req in
            let env :=
              if status req =? 200 then incr_http_200 env
              else incr_http_other env in
            (Ok 0, req, env)
        | CURLE_SSL_CACERT
        | CURLE_PEER_FAILED_VERIFICATION => classified 495 req env
        | CURLE_OPERATION_TIMEDOUT => classified 408 req env
        | CURLE_GOT_NOTHING => classified 444 req env
        | CURLE_COULDNT_RESOLVE_PROXY
        | CURLE_COULDNT_RESOLVE_HOST
        | CURLE_COULDNT_CONNECT
        | CURLE_WRITE_ERROR
        | CURLE_BAD_CONTENT_ENCODING => classified 595 req env
        | CURLE_OUT_OF_MEMORY => (Fail OutOfMemory, req, incr_failed env)
        | CURLE_OTHER _ =>
            let longval := fw_os_errno w in
            let errno :=
              CInt.to_int (if longval =? 0 then EINVAL else longval) in
            (Fail (SystemError errno
                     ("curl: " ++ curl_easy_strerror (code (curl_req req)))),
             req, incr_failed env)
        end
  end.

(** ** Start: [httpc_request_start] *)

(** What the environment hands to one call of [httpc_request_start]:
    whether each [curl_slist_append] finds memory, what
    [curl_request_start] returns and what the engine does inside it,
    the wait for the first headers, and the engine's side of the
    short finish. *)
Record start_world : Type := mk_start_world {
  sw_accept_ok : bool;
  sw_connection_ok : bool;
  sw_keep_alive_ok : bool;
  sw_mcode : CURLMcode;
  sw_events : list engine_event;
  sw_wait : option yield;
  sw_finish : finish_world
}.

Definition and_then (x : result Z * httpc_request)
    (k : httpc_request -> result Z * httpc_request)
  : result Z * httpc_request :=
  match x with
  | (Ok _, req) => k req
  | (Fail d, req) => (Fail d, req)
  end.

(** The three guarded calls of [httpc_set_header] that open
    [httpc_request_start]. *)
Definition start_headers (w : start_world) (req : httpc_request)
  : result Z * httpc_request :=
  and_then
    (if set_accept_header req
     then httpc_set_header (sw_accept_ok w) "Accept: */*" req
     else (Ok 0, req))
    (fun req =>
  and_then
    (if set_connection_header req
     then httpc_set_header (sw_connection_ok w)
            ("Connection: " ++ (if keep_alive_timeout req >? 0
                                then "Keep-Alive" else "close")) req
     else (Ok 0, req))
    (fun req =>
    (if set_keep_alive_header req && (keep_alive_timeout req >? 0)
     then httpc_set_header (sw_keep_alive_ok w)
            ("Keep-Alive: timeout=" ++ fmt_ld (keep_alive_timeout req)) req
     else (Ok 0, req)))).

(** Modelled from the spec: [curl_request_start] (curl.c) is not among
    the sources.  It submits the handle to the engine; on success the
    transfer is in progress and the engine may already act on it. *)
Definition curl_request_start (ndebug : bool) (w : start_world)
    (req : httpc_request) : outcome (CURLMcode * httpc_request) :=
  match sw_mcode w with
  | CURLM_OK =>
      let req := with_curl_req (with_in_progress true (curl_req req)) req in
      match engine_run ndebug (sw_events w) req with
      | Returned req => Returned (CURLM_OK, req)
      | AssertionFailed => AssertionFailed
      end
  | CURLM_FAILED n => Returned (CURLM_FAILED n, req)
  end.

(** [None] when the call does not return (see [io_write_wait]). *)
Definition httpc_request_start (ndebug : bool) (w : start_world)
    (timeout : double) (req : httpc_request) (env : httpc_env)
  : option (result Z * httpc_request * httpc_env) :=
  match start_headers w req with
  | (Fail d, req) => Some (Fail d, req, env)
  | (Ok _, req) =>
      let req := curl_easy_calls
                   [ CURLOPT_WRITEDATA; CURLOPT_HEADERDATA; CURLOPT_PRIVATE;
                     CURLOPT_HTTPHEADER (headers req) ] req in
      let env := incr_total env in
      match curl_request_start ndebug w req with
      | AssertionFailed => None
      | Returned (CURLM_FAILED _, req) => Some (Fail EngineError, req, env)
      | Returned (CURLM_OK, req) =>
          if io req && in_progress (curl_req req) then
            match sw_wait w with
            | None => None
            | Some y =>
                match engine_run ndebug (y_events y) req with
                | AssertionFailed => None
                | Returned req =>
                    match fiber_cond_wait_deadline (y_wake y) with
                    | Fail d =>
                        match httpc_request_finish (sw_finish w) req env with
                        | (Fail d', req, env) => Some (Fail d', req, env)
                        | (Ok _, req, env) => Some (Fail d, req, env)
                        end
                    | Ok _ =>
                        if io req && negb (in_progress (curl_req req))
                        then Some (httpc_request_finish (sw_finish w) req env)
                        else Some (Ok 0, req, env)
                    end
                end
            end
          else if io req && negb (in_progress (curl_req req)) then
            Some (httpc_request_finish (sw_finish w) req env)
          else Some (Ok 0, req, env)
      end
  end.

(** [httpc_execute] *)
Definition httpc_execute (ndebug : bool) (ws : start_world)
    (wf : finish_world) (timeout : double) (req : httpc_request)
    (env : httpc_env) : option (result Z * httpc_request * httpc_env) :=
  match httpc_request_start ndebug ws timeout req env with
  | None => None
  | Some (Fail d, req, env) => Some (Fail d, req, env)
  | Some (Ok _, req, env) => Some (httpc_request_finish wf req env)
  end.

End Engine.

(** ** Statements about the counters *)

(** Counters after against counters before: [total] is left alone and
    the three others grow by the given amounts. *)
Definition counted (d200 dother dfailed : Z) (env env' : httpc_env) : Prop :=
  total_requests (stat env') = total_requests (stat env) /\
  http_200_responses (stat env') = http_200_responses (stat env) + d200 /\
  http_other_responses (stat env') = http_other_responses (stat env) + dother /\
  failed_requests (stat env') = failed_requests (stat env) + dfailed.

(** ** Sample inputs *)

Definition env_zero : httpc_env := mk_env (mk_stat 0 0 0 0).

Definition sample_strerror (k : CURLcode) : string :=
  match k with
  | CURLE_OK => "No error"
  | CURLE_OPERATION_TIMEDOUT => "Timeout was reached"
  | CURLE_COULDNT_CONNECT => "Couldn't connect to server"
  | _ => "Transfer failed"
  end.

(** A transfer that ended well with the response code [rc]. *)
Definition finished_ok (rc : Z) : finish_world :=
  mk_finish_world CURLM_OK CURLE_OK false rc 0.

(** [n] copies of the character [c]. *)
Fixpoint pad (n : nat) (c : ascii) : string :=
  match n with
  | O => EmptyString
  | S n' => String c (pad n' c)
  end.

(** Header lines of exactly [MAX_HEADER_LEN] bytes and of one byte
    more. *)
Definition line_8192 : string := "X-Trace: " ++ pad (Z.to_nat 8183) "x".
Definition line_8193 : string := "X-Trace: " ++ pad (Z.to_nat 8184) "x".
Definition content_length_line_8192 : string :=
  "Content-Length:" ++ pad (Z.to_nat 8177) "x".

(** ** The caller's configuration *)

(** The calls between creation and start that bear on the headers. *)
Inductive setup_call : Type :=
| CallSetHeader (line : string)
| CallSetKeepalive (idle interval : Z).

Definition setup_step (req : httpc_request) (c : setup_call) : httpc_request :=
  match c with
  | CallSetHeader line => snd (httpc_set_header true line req)
  | CallSetKeepalive idle interval => httpc_set_keepalive idle interval req
  end.

Definition configure (cs : list setup_call) (req : httpc_request)
  : httpc_request :=
  fold_left setup_step cs req.

(** The caller supplies the header [key] by a call of [httpc_set_header]
    with a line of that key that is not refused for its length. *)
Definition supplies (key : string) (c : setup_call) : bool :=
  match c with
  | CallSetHeader line =>
      (Z.of_nat (String.length line) <=? MAX_HEADER_LEN) && has_key line key
  | CallSetKeepalive _ _ => false
  end.

Definition supplied (key : string) (cs : list setup_call) : bool :=
  existsb (supplies key) cs.

(** Every list allocation of a start succeeds. *)
Definition start_world_ok (ys : list engine_event) (y : option yield)
    (f : finish_world) : start_world :=
  mk_start_world true true true CURLM_OK ys y f.

(** A configuration in which the caller supplies a Connection header
    and turns keep-alive on. *)
Definition sample_setup : list setup_call :=
  [ CallSetHeader "Connection: upgrade"; CallSetKeepalive 60 10 ].

(** ** Statements about the response headers *)

(** The redirect counts the engine reports to the header callback, in
    the order of the callbacks. *)
Fixpoint header_counts (es : list engine_event) : list Z :=
  match es with
  | [] => []
  | EvHeader _ n _ :: es' => n :: header_counts es'
  | _ :: es' => header_counts es'
  end.


(** The assumption of the assertion: from one header callback to the
    next the count grows by one at most, [prev] being the count before
    the first. *)
Fixpoint counts_stepwise (prev : Z) (ns : list Z) : Prop :=
  match ns with
  | [] => True
  | n :: ns' => n <= prev + 1 /\ counts_stepwise n ns'
  end.





(** A transfer through one redirect: the headers of the 301, then those
    of the final 200 with a piece of its body. *)
Definition hop0_status : bytes := [Byte.x33; Byte.x30; Byte.x31].
Definition hop0_location : bytes := [Byte.x4c; Byte.x6f; Byte.x63].
Definition hop1_status : bytes := [Byte.x32; Byte.x30; Byte.x30].
Definition hop1_server : bytes := [Byte.x53; Byte.x72; Byte.x76].

Definition redirected_transfer : list engine_event :=
  [ EvHeader true 0 hop0_status;
    EvHeader true 0 hop0_location;
    EvHeader true 1 hop1_status;
    EvHeader true 1 hop1_server;
    EvBody true [Byte.x68; Byte.x69];
    EvDone CURLE_OK ].

(** ** Statements about the streaming upload *)

(** Turns of the wait loop of [httpc_request_io_write] after each of
    which the transfer is still in progress with bytes left in [send]:
    the first wait of the turn is signalled, the second returns.  The
    result is the request after the last turn. *)
Fixpoint stalled_turns (ndebug : bool) (turns : list (yield * yield))
    (req : httpc_request) : option httpc_request :=
  match turns with
  | [] => Some req
  | (y1, y2) :: turns' =>
      match y_wake y1, engine_run ndebug (y_events y1) req with
      | Signalled, Returned req1 =>
          match engine_run ndebug (y_events y2) req1 with
          | Returned req2 =>
              if in_progress (curl_req req2)
                 && negb (ibuf_used (send req2) =? 0)
              then stalled_turns ndebug turns' req2
              else None
          | AssertionFailed => None
          end
      | _, _ => None
      end
  end.

(** The suspensions of these turns, in order. *)
Fixpoint turns_yields (turns : list (yield * yield)) : list yield :=
  match turns with
  | [] => []
  | (y1, y2) :: turns' => y1 :: y2 :: turns_yields turns'
  end.

(** A streaming POST whose transfer is in progress. *)
Definition streaming_post : httpc_request :=
  match httpc_request_new true true "POST" "http://localhost/echo" with
  | Ok req =>
      let req := snd (httpc_set_io "POST" req) in
      with_curl_req (with_in_progress true (curl_req req)) req
  | Fail _ => request_zero
  end.

Definition two_bytes : bytes := [Byte.x61; Byte.x62].

(** A wait during which the engine does nothing and the deadline
    expires, and one during which the engine takes up to a kilobyte
    from [send] and signals. *)
Definition idle_timeout : yield := mk_yield [] DeadlineExpired.
Definition engine_reads : yield := mk_yield [EvRead 1024] Signalled.
Definition engine_completes : yield := mk_yield [EvDone CURLE_OK] Signalled.
Definition idle_signal : yield := mk_yield [] Signalled.

(** The same request with two bytes of an earlier write still in
    [send]. *)
Definition pending_upload : httpc_request := with_send two_bytes streaming_post.

Definition one_second : double := 1 # 1.

(** A wait during which the read callback takes one byte from [send]
    and signals. *)
Definition engine_reads_one : yield := mk_yield [EvRead 1] Signalled.

Definition three_bytes : bytes := [Byte.x61; Byte.x62; Byte.x63].

(** A streaming POST reached by the calls of the interface alone: the
    request is created, [httpc_set_body] puts three bytes in [send],
    [httpc_set_io] turns streaming on and [httpc_request_start] submits
    it; while the start waits for the engine, the read callback takes
    the first byte and wakes it.  The start returns with the transfer
    in progress and two bytes of the body still in [send]. *)
Definition started_upload : httpc_request :=
  match httpc_request_new true true "POST" "http://localhost/echo" with
  | Ok req =>
      let req := snd (httpc_set_body true true three_bytes req) in
      let req := snd (httpc_set_io "POST" req) in
      match httpc_request_start sample_strerror false
              (start_world_ok [] (Some engine_reads_one) (finished_ok 200))
              one_second req env_zero with
      | Some (Ok _, req, _) => req
      | _ => request_zero
      end
  | Fail _ => request_zero
  end.

(** ** Streaming download: [httpc_request_io_read] *)

(** What the allocator hands to one call of [httpc_request_io_read]:
    the capacity of [io_recv], whether [ibuf_reserve] finds memory, and
    whether each of the two calls of [region_join] does. *)
Record read_world : Type := mk_read_world {
  rw_capacity : Z;
  rw_reserve_ok : bool;
  rw_join_ok : bool;
  rw_join_again_ok : bool
}.

(** The [while] loop that waits for response bytes; [ys] lists the
    suspensions to come and [None] means that the call does not return
    (see [io_write_wait]).  [Ok (ibuf_len, recv_len)] is the exit of
    the loop with these values of the two locals. *)
Fixpoint io_read_wait (ndebug : bool) (timeout : double)
    (ibuf_len recv_len : Z) (req : httpc_request) (ys : list yield)
    {struct ys}
  : option (result (Z * Z) * httpc_request * list yield) :=
  if in_progress (curl_req req) && positive timeout
     && (recv_len + ibuf_len =? 0)
  then
    match ys with
    | [] => None
    | y :: ys' =>
        match engine_run ndebug (y_events y) req with
        | AssertionFailed => None
        | Returned req1 =>
            match fiber_cond_wait_deadline (y_wake y) with
            | Fail d => Some (Fail d, req1, ys')
            | Ok _ =>
                io_read_wait ndebug timeout
                  (ibuf_used (io_recv req1)) (region_used (recv req1))
                  req1 ys'
            end
        end
    end
  else Some (Ok (ibuf_len, recv_len), req, ys).

(** The call on a buffer of [len] bytes.  The second component of the
    result is what the call has copied into the caller's buffer, from
    its start.  The allocation for the tail kept in [io_recv] is taken
    to succeed, as the source takes it. *)
Definition httpc_request_io_read (ndebug : bool) (w : read_world) (len : Z)
    (timeout : double) (req : httpc_request) (ys : list yield)
  : option (result Z * bytes * httpc_request * list yield) :=
  if negb (io req) then Some (Fail must_be_io, [], req, ys)
  else
    match io_read_wait ndebug timeout
            (ibuf_used (io_recv req)) (region_used (recv req)) req ys with
    | None => None
    | Some (Fail d, req, ys) => Some (Fail d, [], req, ys)
    | Some (Ok (ibuf_len, recv_len), req, ys) =>
        if recv_len + ibuf_len =? 0 then Some (Ok 0, [], req, ys)
        else
          let prepared : bool :=
            if (ibuf_len <? len) && (recv_len >? len - ibuf_len) then
              let uncopy_part := recv_len - (len - ibuf_len) in
              if (rw_capacity w <? uncopy_part) && negb (rw_reserve_ok w)
              then false
              else rw_join_ok w
            else true in
          if negb prepared then Some (Fail OutOfMemory, [], req, ys)
          else
            let copied := if ibuf_len <? len then ibuf_len else len in
            let out := firstn (Z.to_nat copied) (io_recv req) in
            let req :=
              if copied >? 0 then
                if copied =? ibuf_len then with_io_recv [] req
                else with_io_recv (skipn (Z.to_nat copied) (io_recv req)) req
              else req in
            if (copied <? len) && (recv_len >? 0) then
              let remain := len - copied in
              if negb (rw_join_again_ok w) then
                Some (Fail OutOfMemory, out, req, ys)
              else
                let joined := recv req in
                let remain := if remain >? recv_len then recv_len else remain in
                let out := out ++ firstn (Z.to_nat remain) joined in
                let copied := copied + remain in
                let req :=
                  if recv_len >? remain then
                    with_io_recv
                      (io_recv req ++ skipn (Z.to_nat remain) joined) req
                  else req in
                Some (Ok copied, out, with_recv [] req, ys)
            else Some (Ok copied, out, req, ys)
    end.

(** ** Statements about the streamed bytes *)

(** The response bytes a request holds for the reader: the staged ones
    first, then those the engine delivered since. *)
Definition pending (req : httpc_request) : bytes := io_recv req ++ recv req.

(** The body bytes the engine delivers in an activity and the region
    finds memory for. *)
Fixpoint body_stored (es : list engine_event) : bytes :=
  match es with
  | [] => []
  | EvBody true chunk :: es' => chunk ++ body_stored es'
  | _ :: es' => body_stored es'
  end.

(** The engine's activity during a list of suspensions. *)
Fixpoint yields_events (ys : list yield) : list engine_event :=
  match ys with
  | [] => []
  | y :: ys' => y_events y ++ yields_events ys'
  end.

(** The bytes the read callback hands to the engine in an activity. *)
Fixpoint engine_uploaded (ndebug : bool) (es : list engine_event)
    (req : httpc_request) : bytes :=
  match es with
  | [] => []
  | e :: es' =>
      (match e with
       | EvRead size => snd (fst (curl_easy_io_read_cb size req))
       | _ => []
       end)
      ++ match engine_step ndebug e req with
         | Returned req' => engine_uploaded ndebug es' req'
         | AssertionFailed => []
         end
  end.

(** A reader's session: calls of [httpc_request_io_read] and
    suspensions of the task in between.  The session ends at the first
    call that fails or does not return; otherwise it gives the
    concatenation of what the calls copied out. *)
Inductive read_step : Type :=
| StepRead (w : read_world) (len : Z) (timeout : double)
| StepYield.

Fixpoint read_session (ndebug : bool) (steps : list read_step)
    (req : httpc_request) (ys : list yield)
  : option (bytes * httpc_request * list yield) :=
  match steps with
  | [] => Some ([], req, ys)
  | StepRead w len timeout :: steps' =>
      match httpc_request_io_read ndebug w len timeout req ys with
      | Some (Ok _, out, req', ys') =>
          match read_session ndebug steps' req' ys' with
          | Some (outs, req'', ys'') => Some (out ++ outs, req'', ys'')
          | None => None
          end
      | _ => None
      end
  | StepYield :: steps' =>
      match ys with
      | y :: ys' =>
          match engine_run ndebug (y_events y) req with
          | Returned req' => read_session ndebug steps' req' ys'
          | AssertionFailed => None
          end
      | [] => None
      end
  end.

(** ** Closing a streaming request: [httpc_request_io_finish] *)

(** [elapsed] is the monotonic time that passes during the closing
    write. *)
Definition httpc_request_io_finish
    (curl_easy_strerror : CURLcode -> string) (ndebug : bool)
    (elapsed : double) (wf : finish_world) (timeout : double)
    (req : httpc_request) (env : httpc_env) (ys : list yield)
  : option (result Z * httpc_request * httpc_env * list yield) :=
  if negb (io req) then Some (Fail must_be_io, req, env, ys)
  else
    let closing : option (double * httpc_request * list yield) :=
      if in_progress (curl_req req) && negb (io_send_closed req) then
        let timeout := if positive timeout then timeout else 0%Q in
        match httpc_request_io_write ndebug [] timeout req ys with
        | None => None
        | Some (res, req, ys) =>
            let req :=
              match res with
              | Ok v => if v =? 0 then with_io_send_closed true req else req
              | Fail _ => req
              end in
            Some ((timeout - elapsed)%Q, req, ys)
        end
      else Some (timeout, req, ys) in
    match closing with
    | None => None
    | Some (timeout, req, ys) =>
        let timeout := if positive timeout then timeout else 0%Q in
        if status req =? 0 then
          match httpc_request_finish curl_easy_strerror wf req env with
          | (Fail d, req, env) => Some (Fail d, req, env, ys)
          | (Ok _, req, env) => Some (Ok 0, req, env, ys)
          end
        else Some (Ok 0, req, env, ys)
    end.

(** The buffer lengths of the reads of a session are sizes. *)
Fixpoint read_lens_ok (steps : list read_step) : bool :=
  match steps with
  | [] => true
  | StepRead _ len _ :: steps' => (0 <=? len) && read_lens_ok steps'
  | StepYield :: steps' => read_lens_ok steps'
  end.

(** A streaming GET whose transfer is in progress, and a download in
    two chunks: five bytes arrive while the reader waits, three more
    with the end of the transfer while the task is suspended
    elsewhere. *)
Definition streaming_get : httpc_request :=
  match httpc_request_new true true "GET" "http://localhost/ok" with
  | Ok req =>
      let req := snd (httpc_set_io "GET" req) in
      with_curl_req (with_in_progress true (curl_req req)) req
  | Fail _ => request_zero
  end.

Definition chunk_hello : bytes :=
  [Byte.x68; Byte.x65; Byte.x6c; Byte.x6c; Byte.x6f].
Definition chunk_end : bytes := [Byte.x21; Byte.x0d; Byte.x0a].

Definition download_yields : list yield :=
  [ mk_yield [EvBody true chunk_hello] Signalled;
    mk_yield [EvBody true chunk_end; EvDone CURLE_OK] Signalled ].

Definition plain_read : read_world := mk_read_world 0 true true true.

Definition download_session : list read_step :=
  [ StepRead plain_read 3 one_second;
    StepYield;
    StepRead plain_read 16 one_second;
    StepRead plain_read 16 one_second ].

(** An engine that takes the bytes of [send] one at a time. *)
Definition slow_engine : yield := mk_yield [EvRead 1; EvRead 1; EvRead 1] Signalled.

(** ** Statements about whole requests *)

(** The number of requests an environment has counted as completed,
    whatever their outcome. *)
Definition outcomes (env : httpc_env) : Z :=
  http_200_responses (stat env) + http_other_responses (stat env)
  + failed_requests (stat env).

(** A connection that is refused while the request is submitted. *)
Definition refused_start : start_world :=
  start_world_ok [EvDone CURLE_COULDNT_CONNECT] None (finished_ok 0).
Definition refused_finish : finish_world :=
  mk_finish_world CURLM_OK CURLE_COULDNT_CONNECT false 0 111.

(** A streaming upload that already has its status while bytes of an
    earlier write are still in [send]. *)
Definition settled_upload : httpc_request := with_status 200 pending_upload.

(** The idle time in force after a configuration that started with
    [kat]: that of the last call of [httpc_set_keepalive] with both
    arguments positive. *)
Fixpoint keepalive_of (cs : list setup_call) (kat : Z) : Z :=
  match cs with
  | [] => kat
  | CallSetKeepalive idle interval :: cs' =>
      keepalive_of cs' (if (idle >? 0) && (interval >? 0) then idle else kat)
  | CallSetHeader _ :: cs' => keepalive_of cs' kat
  end.

(** Keep-alive is turned on, then a call with zeros follows. *)
Definition keepalive_then_zero : list setup_call :=
  [ CallSetKeepalive 60 10; CallSetKeepalive 0 0 ].

(** * Properties *)

(** ** Integers *)

Lemma to_int_fits (v : Z) : CInt.fits_int v -> CInt.to_int v = v.
Proof.
  unfold CInt.fits_int, CInt.INT_MIN, CInt.INT_MAX, CInt.to_int. intros Hv.
  rewrite Z.mod_small; lia.
Qed.

Lemma clamp_long_fits (v : Z) : CInt.fits_long v -> CInt.clamp_long v = v.
Proof.
  unfold CInt.fits_long, CInt.clamp_long. intros Hv.
  destruct (Z.ltb_spec v CInt.LONG_MIN); [lia|].
  destruct (Z.ltb_spec CInt.LONG_MAX v); [lia|reflexivity].
Qed.

(** ** C strings *)

Lemma char_code_inj (c d : ascii) : char_code c = char_code d -> c = d.
Proof.
  unfold char_code. intros H. apply N2Z.inj in H.
  rewrite <- (ascii_N_embedding c), <- (ascii_N_embedding d).
  now rewrite H.
Qed.

Lemma char_code_zero (c : ascii) : char_code c = 0 -> c = Ascii.zero.
Proof.
  intros H. apply char_code_inj. rewrite H. reflexivity.
Qed.

Lemma strcmp_refl (a : string) : strcmp a a = 0.
Proof.
  induction a as [|c a IH]; simpl; [reflexivity|].
  now rewrite Ascii.eqb_refl.
Qed.

(** On C strings [strcmp] returns zero exactly when the strings are
    equal. *)
Lemma strcmp_eqb (a b : string) :
  cstring a = true -> cstring b = true ->
  (strcmp a b =? 0) = String.eqb a b.
Proof.
  revert b. induction a as [|c a IH]; intros [|d b] Ha Hb; simpl in *.
  - reflexivity.
  - apply andb_prop in Hb as [Hd _].
    apply Z.eqb_neq. intros H.
    assert (Hz : char_code d = 0) by lia.
    apply char_code_zero in Hz. subst d. discriminate.
  - apply andb_prop in Ha as [Hc _].
    apply Z.eqb_neq. intros H.
    apply char_code_zero in H. subst c. discriminate.
  - apply andb_prop in Ha as [_ Ha]. apply andb_prop in Hb as [_ Hb].
    destruct (Ascii.eqb c d) eqn:E.
    + now apply IH.
    + apply Z.eqb_neq. intros H.
      assert (Hcd : char_code c = char_code d) by lia.
      apply char_code_inj in Hcd. subst d.
      rewrite Ascii.eqb_refl in E. discriminate.
Qed.

(** ** Request creation *)

(** X3. What the method test of [httpc_request_new] does for every method:
    it agrees with the method table on GET, HEAD, POST and PUT, treats
    PATCH as the table treats an unknown method, and treats every other
    method as the table treats POST. *)
Lemma request_new_method_table (method url : string) :
  cstring method = true ->
  exists req,
    httpc_request_new true true method url = Ok req /\
    let by_table :=
      String.eqb method "GET" || String.eqb method "HEAD"
      || String.eqb method "POST" || String.eqb method "PUT" in
    let setup :=
      if by_table then MethodSpec.method_setup method
      else if String.eqb method "PATCH" then [CURLOPT_CUSTOMREQUEST method]
      else post_setup method in
    let accept :=
      if by_table then MethodSpec.accept_flag method
      else negb (String.eqb method "PATCH") in
    easy (curl_req req) = setup ++ common_setup url /\
    set_accept_header req = accept.
Proof.
  intros Hm. unfold httpc_request_new. cbn [negb].
  rewrite !strcmp_eqb by (assumption || reflexivity).
  unfold MethodSpec.method_setup, MethodSpec.accept_flag,
    MethodSpec.is_post_shaped.
  destruct (String.eqb method "GET") eqn:EG;
    [apply String.eqb_eq in EG; subst method;
     eexists; split; [reflexivity|]; split; reflexivity|].
  destruct (String.eqb method "HEAD") eqn:EH;
    [apply String.eqb_eq in EH; subst method;
     eexists; split; [reflexivity|]; split; reflexivity|].
  destruct (String.eqb method "POST") eqn:EP;
    [apply String.eqb_eq in EP; subst method;
     eexists; split; [reflexivity|]; split; reflexivity|].
  destruct (String.eqb method "PUT") eqn:EU;
    [apply String.eqb_eq in EU; subst method;
     eexists; split; [reflexivity|]; split; reflexivity|].
  destruct (String.eqb method "PATCH") eqn:EA;
    eexists; (split; [reflexivity|]); split; reflexivity.
Qed.

(** C1. The method table maps POST, PUT and PATCH to the POST-shaped
    setup and every other method to a bare CUSTOMREQUEST.  The source
    tests [strcmp(method, "PATCH")] without comparing to zero, so the
    code runs the two rows the other way round: DELETE gets the
    POST-shaped setup with the Accept flag set, and PATCH gets a bare
    CUSTOMREQUEST with the flag clear, neither being what the table
    prescribes. *)
Theorem request_new_patch_test_inverted (url : string) :
  (exists req,
     httpc_request_new true true "DELETE" url = Ok req /\
     easy (curl_req req) = post_setup "DELETE" ++ common_setup url /\
     set_accept_header req = true /\
     MethodSpec.method_setup "DELETE" = [CURLOPT_CUSTOMREQUEST "DELETE"] /\
     MethodSpec.accept_flag "DELETE" = false) /\
  (exists req,
     httpc_request_new true true "PATCH" url = Ok req /\
     easy (curl_req req) = [CURLOPT_CUSTOMREQUEST "PATCH"] ++ common_setup url /\
     set_accept_header req = false /\
     MethodSpec.method_setup "PATCH" = post_setup "PATCH" /\
     MethodSpec.accept_flag "PATCH" = true).
Proof.
  split; eexists; (split; [reflexivity|]); repeat split.
Qed.

(** ** Completion classification *)

Lemma counted_failed (env : httpc_env) : counted 0 0 1 env (incr_failed env).
Proof. unfold counted; simpl; lia. Qed.

Lemma counted_http_200 (env : httpc_env) : counted 1 0 0 env (incr_http_200 env).
Proof. unfold counted; simpl; lia. Qed.

Lemma counted_http_other (env : httpc_env) :
  counted 0 1 0 env (incr_http_other env).
Proof. unfold counted; simpl; lia. Qed.

Create HintDb httpc.

#[local] Hint Resolve counted_failed counted_http_200 counted_http_other
  : httpc.

(** Splits a table of cases and closes the rows that do not apply. *)
Ltac finish_cases :=
  repeat match goal with
         | |- _ /\ _ => split
         | |- forall _, _ => intro
         end;
  try reflexivity; try discriminate; try (exfalso; lia);
  try (intuition discriminate); auto with httpc.

(** C3. When [curl_request_finish] succeeds and no error is injected,
    the call classifies the terminal code [k] it observes.  [CURLE_OK]:
    success, [status] is the engine's response code (one that an [int]
    holds), [reason] is "Ok" exactly when [100 <= status < 400] and
    "Unknown" otherwise, [http_200] grows when [status = 200] and
    [http_other] otherwise.  Peer verification failed: 495; timed out:
    408; got nothing: 444; resolve, connect, write and encoding errors:
    595; each with the engine's error string as reason, success as the
    return value and [failed] grown by one.  Out of memory fails with
    [OutOfMemory] and every other code with [SystemError], [failed]
    grown by one in both. *)
Theorem finish_classifies_terminal_code
    (curl_easy_strerror : CURLcode -> string)
    (w : finish_world) (req : httpc_request) (env : httpc_env) :
  fw_mcode w = CURLM_OK ->
  fw_errinj w = false ->
  CInt.fits_int (fw_response_code w) ->
  let '(ret, req', env') := httpc_request_finish curl_easy_strerror w req env in
  let k := fw_code w in
  let failure (st : Z) :=
    ret = Ok 0 /\ status req' = st /\
    reason req' = Some (curl_easy_strerror k) /\ counted 0 0 1 env env' in
  (k = CURLE_OK ->
     ret = Ok 0 /\
     status req' = fw_response_code w /\
     (100 <= status req' < 400 -> reason req' = Some "Ok") /\
     (~ 100 <= status req' < 400 -> reason req' = Some "Unknown") /\
     (status req' = 200 -> counted 1 0 0 env env') /\
     (status req' <> 200 -> counted 0 1 0 env env')) /\
  (k = CURLE_PEER_FAILED_VERIFICATION \/ k = CURLE_SSL_CACERT -> failure 495) /\
  (k = CURLE_OPERATION_TIMEDOUT -> failure 408) /\
  (k = CURLE_GOT_NOTHING -> failure 444) /\
  (k = CURLE_COULDNT_RESOLVE_PROXY \/ k = CURLE_COULDNT_RESOLVE_HOST \/
   k = CURLE_COULDNT_CONNECT \/ k = CURLE_WRITE_ERROR \/
   k = CURLE_BAD_CONTENT_ENCODING -> failure 595) /\
  (k = CURLE_OUT_OF_MEMORY ->
     ret = Fail OutOfMemory /\ counted 0 0 1 env env') /\
  (forall n, k = CURLE_OTHER n ->
     (exists errno msg, ret = Fail (SystemError errno msg)) /\
     counted 0 0 1 env env').
Proof.
  intros Hm He Hfit.
  unfold httpc_request_finish, curl_request_finish.
  rewrite Hm, He. cbn [code curl_req with_curl_req with_code].
  destruct (fw_code w) eqn:Ek; cbn [classified].
  - (* CURLE_OK *)
    rewrite (to_int_fits _ Hfit).
    set (rc := fw_response_code w).
    cbn [status with_status].
    destruct ((rc >=? 100) && (rc <? 400)) eqn:E;
      cbn [status reason with_reason with_status];
      (apply andb_true_iff in E as [E3 E4] || apply andb_false_iff in E);
      destruct (Z.eqb_spec rc 200) as [E2|E2];
      finish_cases.
  - finish_cases.
  - finish_cases.
  - finish_cases.
  - finish_cases.
  - finish_cases.
  - finish_cases.
  - finish_cases.
  - finish_cases.
  - finish_cases.
  - finish_cases.
  - finish_cases. eauto.
Qed.

Lemma finish_classifies_terminal_code_witness :
  fw_mcode (finished_ok 200) = CURLM_OK /\
  fw_errinj (finished_ok 200) = false /\
  CInt.fits_int (fw_response_code (finished_ok 200)) /\
  let '(ret, req', env') :=
    httpc_request_finish sample_strerror (finished_ok 200) request_zero env_zero in
  ret = Ok 0 /\ status req' = 200 /\ reason req' = Some "Ok" /\
  http_200_responses (stat env') = 1.
Proof.
  assert (Hfit : CInt.fits_int (fw_response_code (finished_ok 200)))
    by (cbv; split; discriminate).
  split; [reflexivity|]. split; [reflexivity|]. split; [exact Hfit|].
  pose proof (finish_classifies_terminal_code sample_strerror (finished_ok 200)
                request_zero env_zero eq_refl eq_refl Hfit) as T.
  destruct (httpc_request_finish sample_strerror (finished_ok 200)
              request_zero env_zero) as [[ret req'] env'].
  destruct T as [T _]. specialize (T eq_refl).
  destruct T as (Hret & Hst & Hok & _ & H200 & _).
  cbn in Hst. rewrite Hst in *.
  split; [exact Hret|]. split; [reflexivity|].
  split; [apply Hok; lia|].
  destruct (H200 eq_refl) as (_ & H & _). exact H.
Defined.

(** C6 as stated fails: a transfer that ends well with the response
    code 600 finishes with success and [status = 600]. *)
Lemma finish_success_status_600 :
  let '(ret, req', _) :=
    httpc_request_finish sample_strerror (finished_ok 600) request_zero env_zero in
  ret = Ok 0 /\ ~ (100 <= status req' <= 599).
Proof.
  cbn. split; [reflexivity|]. cbv. intros [_ H]. apply H. reflexivity.
Qed.

(** C6, amended.  After a successful finish [reason] is not null, and
    [status] is the engine's response code when the terminal code is
    OK and one of 408, 444, 495 and 595 otherwise; so [status] lies in
    [100, 599] whenever the response code of an OK transfer does. *)
Theorem finish_success_status_and_reason
    (curl_easy_strerror : CURLcode -> string)
    (w : finish_world) (req req' : httpc_request) (env env' : httpc_env)
    (v : Z) :
  httpc_request_finish curl_easy_strerror w req env = (Ok v, req', env') ->
  reason req' <> None /\
  (fw_code w = CURLE_OK -> status req' = CInt.to_int (fw_response_code w)) /\
  (fw_code w <> CURLE_OK ->
     status req' = 408 \/ status req' = 444 \/
     status req' = 495 \/ status req' = 595) /\
  ((fw_code w = CURLE_OK -> 100 <= fw_response_code w <= 599) ->
   100 <= status req' <= 599).
Proof.
  unfold httpc_request_finish, curl_request_finish.
  destruct (fw_mcode w); [|discriminate].
  destruct (fw_errinj w); [discriminate|].
  cbn [code curl_req with_curl_req with_code].
  destruct (fw_code w) eqn:Ek; cbn [classified]; intros H;
    inversion H; subst; clear H;
    cbn [status reason with_reason with_status].
  2-10: repeat split; try discriminate; try congruence; intros; lia.
  - set (rc := fw_response_code w).
    assert (Hr : forall b : bool,
               reason (if b then with_reason (Some "Ok")
                                   (with_status (CInt.to_int rc)
                                      (with_curl_req
                                         (with_code CURLE_OK
                                            (with_in_progress false (curl_req req)))
                                         req))
                       else with_reason (Some "Unknown")
                                   (with_status (CInt.to_int rc)
                                      (with_curl_req
                                         (with_code CURLE_OK
                                            (with_in_progress false (curl_req req)))
                                         req))) <> None)
      by (intros []; discriminate).
    assert (Hs : forall (b : bool) (r1 r2 : option string) q,
               status (if b then with_reason r1 q else with_reason r2 q)
               = status q) by (intros []; reflexivity).
    rewrite Hs. cbn [status with_status].
    split; [apply Hr|]. split; [reflexivity|]. split; [congruence|].
    intros Hrange. specialize (Hrange eq_refl).
    rewrite to_int_fits; [exact Hrange|].
    unfold CInt.fits_int, CInt.INT_MIN, CInt.INT_MAX. lia.
Qed.

Lemma finish_success_status_and_reason_witness :
  exists req' env',
    httpc_request_finish sample_strerror (finished_ok 404) request_zero env_zero
    = (Ok 0, req', env') /\
    (fw_code (finished_ok 404) = CURLE_OK ->
     100 <= fw_response_code (finished_ok 404) <= 599) /\
    100 <= status req' <= 599 /\ reason req' <> None.
Proof.
  eexists; eexists.
  assert (H : fw_code (finished_ok 404) = CURLE_OK ->
              100 <= fw_response_code (finished_ok 404) <= 599)
    by (intros _; cbn; lia).
  match goal with
  | |- ?e = _ /\ _ =>
      assert (E : e = (Ok 0,
                       with_reason (Some "Unknown")
                         (with_status 404
                            (with_curl_req
                               (mk_curl_request [] false CURLE_OK false)
                               request_zero)),
                       incr_http_other env_zero)) by reflexivity
  end.
  split; [exact E|]. split; [exact H|].
  pose proof (finish_success_status_and_reason _ _ _ _ _ _ _ E)
    as (Hreason & _ & _ & Hstatus).
  split; [exact (Hstatus H)|exact Hreason].
Defined.

(** ** Outgoing headers *)

Lemma set_header_too_large (slist_ok : bool) (line : string)
    (req : httpc_request) :
  Z.of_nat (String.length line) > MAX_HEADER_LEN ->
  httpc_set_header slist_ok line req = (Fail too_large, req).
Proof.
  intros H. unfold httpc_set_header.
  destruct (Z.gtb_spec (Z.of_nat (String.length line)) MAX_HEADER_LEN);
    [reflexivity|lia].
Qed.

(** Every failure of [httpc_set_header] with [IllegalParams] leaves the
    request as it was. *)
Lemma set_header_illegal_params_unchanged (slist_ok : bool) (line : string)
    (req req' : httpc_request) (msg : string) :
  httpc_set_header slist_ok line req = (Fail (IllegalParams msg), req') ->
  req' = req.
Proof.
  unfold httpc_set_header.
  destruct (_ >? MAX_HEADER_LEN); [intros H; now inversion H|].
  destruct (has_key line HTTP_ACCEPT_HEADER);
    [destruct slist_ok; discriminate|].
  destruct (has_key line HTTP_CONNECTION_HEADER);
    [destruct slist_ok; discriminate|].
  destruct (has_key line HTTP_CONTENT_LENGTH_HEADER).
  - destruct (strtol _) as [length end_].
    destruct (negb (at_terminator end_) || (length <? 0)).
    + intros H; now inversion H.
    + destruct slist_ok; discriminate.
  - destruct (has_key line HTTP_KEEP_ALIVE_HEADER);
      destruct slist_ok; discriminate.
Qed.

(** C8 as stated fails: a Content-Length line of exactly
    [MAX_HEADER_LEN] bytes whose value is not a number is refused. *)
Lemma set_header_8192_content_length_refused :
  Z.of_nat (String.length content_length_line_8192) = MAX_HEADER_LEN /\
  fst (httpc_set_header true content_length_line_8192 request_zero)
  = Fail bad_content_length.
Proof. split; vm_compute; reflexivity. Qed.

(** C8, amended.  A line of exactly [MAX_HEADER_LEN] bytes is not
    refused for its length: given memory for the list node, the call
    succeeds and appends the line, unless the line is a Content-Length
    header whose value is refused.  A line of [MAX_HEADER_LEN + 1]
    bytes or more fails with [IllegalParams]. *)
Theorem set_header_length_boundary (slist_ok : bool) (line : string)
    (req : httpc_request) :
  let r := httpc_set_header slist_ok line req in
  (Z.of_nat (String.length line) = MAX_HEADER_LEN -> slist_ok = true ->
   (fst r = Ok 0 /\ headers (snd r) = headers req ++ [line]) \/
   (fst r = Fail bad_content_length /\
    has_key line HTTP_CONTENT_LENGTH_HEADER = true)) /\
  (Z.of_nat (String.length line) >= MAX_HEADER_LEN + 1 ->
   r = (Fail too_large, req)).
Proof.
  cbv zeta. split.
  - intros Hlen ->. unfold httpc_set_header. rewrite Hlen.
    change (MAX_HEADER_LEN >? MAX_HEADER_LEN) with false. cbv iota.
    destruct (has_key line HTTP_ACCEPT_HEADER); [left; split; reflexivity|].
    destruct (has_key line HTTP_CONNECTION_HEADER);
      [left; split; reflexivity|].
    destruct (has_key line HTTP_CONTENT_LENGTH_HEADER).
    + destruct (strtol _) as [length end_].
      destruct (negb (at_terminator end_) || (length <? 0));
        [right|left]; split; reflexivity.
    + destruct (has_key line HTTP_KEEP_ALIVE_HEADER);
        left; split; reflexivity.
  - intros Hlen. apply set_header_too_large. lia.
Qed.

Lemma set_header_length_boundary_witness :
  (Z.of_nat (String.length line_8192) = MAX_HEADER_LEN /\
   fst (httpc_set_header true line_8192 request_zero) = Ok 0) /\
  (Z.of_nat (String.length line_8193) >= MAX_HEADER_LEN + 1 /\
   httpc_set_header true line_8193 request_zero = (Fail too_large, request_zero)).
Proof.
  assert (H1 : Z.of_nat (String.length line_8192) = MAX_HEADER_LEN)
    by (vm_compute; reflexivity).
  assert (H2 : Z.of_nat (String.length line_8193) >= MAX_HEADER_LEN + 1)
    by (vm_compute; discriminate).
  split.
  - split; [exact H1|].
    destruct (set_header_length_boundary true line_8192 request_zero) as [T _].
    destruct (T H1 eq_refl) as [[E _]|[_ E]]; [exact E|].
    vm_compute in E. discriminate E.
  - split; [exact H2|].
    destruct (set_header_length_boundary true line_8193 request_zero) as [_ T].
    exact (T H2).
Defined.

(** C4. A Content-Length value that is not a non-negative integer must
    be refused with [IllegalParams] and a value that is one must be
    stored.  The source checks neither that [strtol] consumed a digit
    nor that it stayed in range: the empty value is accepted and stored
    as [0], and a number beyond [LONG_MAX] is accepted and stored as
    [LONG_MAX]. *)
Theorem set_header_content_length_unchecked_strtol (req : httpc_request) :
  httpc_set_header true "Content-Length:" req
  = (Ok 0,
     with_headers (headers req ++ ["Content-Length:"])
       (with_content_length 0 req)) /\
  httpc_set_header true "Content-Length: 9223372036854775808" req
  = (Ok 0,
     with_headers (headers req ++ ["Content-Length: 9223372036854775808"])
       (with_content_length 9223372036854775807 req)).
Proof. split; reflexivity. Qed.

(** The refusals the check does make: a value followed by anything but
    the end of the line, and a negative value. *)
Lemma set_header_content_length_refusals (req : httpc_request) :
  fst (httpc_set_header true "Content-Length: 12 bytes" req)
  = Fail bad_content_length /\
  fst (httpc_set_header true "Content-Length: abc" req)
  = Fail bad_content_length /\
  fst (httpc_set_header true "Content-Length: -1" req)
  = Fail bad_content_length /\
  httpc_set_header true "content-length: 42" req
  = (Ok 0,
     with_headers (headers req ++ ["content-length: 42"])
       (with_content_length 42 req)).
Proof. repeat split; reflexivity. Qed.

(** The first characters of a line and of its key agree up to case. *)
Lemma has_key_head (c d : ascii) (r k : string) :
  has_key (String c r) (String d k) = true -> tolower c = tolower d.
Proof.
  unfold has_key. cbn [strlen String.length strncasecmp].
  destruct (Ascii.eqb_spec (tolower c) (tolower d)) as [E|E]; [easy|].
  intros H. apply Z.eqb_eq in H.
  assert (Hc : char_code (tolower c) = char_code (tolower d)) by lia.
  now apply char_code_inj in Hc.
Qed.

Lemma has_key_empty (d : ascii) (k : string) :
  has_key EmptyString (String d k) = true -> char_code (tolower d) = 0.
Proof.
  unfold has_key. cbn [strlen String.length strncasecmp].
  intros H. apply Z.eqb_eq in H. lia.
Qed.

(** Two keys that start with different letters are not both the key of
    one line. *)
Lemma has_key_disjoint (line : string) (d e : ascii) (k k' : string) :
  tolower d <> tolower e ->
  char_code (tolower d) <> 0 ->
  has_key line (String d k) = true ->
  has_key line (String e k') = false.
Proof.
  intros Hne Hnz H. destruct line as [|c r].
  - apply has_key_empty in H. contradiction.
  - apply has_key_head in H.
    destruct (has_key (String c r) (String e k')) eqn:E; [|reflexivity].
    apply has_key_head in E. congruence.
Qed.

Lemma string_length_app (a b : string) :
  String.length (a ++ b) = (String.length a + String.length b)%nat.
Proof. induction a as [|c a IH]; simpl; [reflexivity|now rewrite IH]. Qed.

Lemma dec_digits_length (fuel : nat) (n : Z) (acc : string) :
  (String.length (dec_digits fuel n acc) <= fuel + String.length acc)%nat.
Proof.
  revert n acc. induction fuel as [|f IH]; intros n acc; simpl; [lia|].
  destruct (n / 10 =? 0); simpl; [lia|].
  specialize (IH (n / 10) (String (digit_char (n mod 10)) acc)).
  simpl in IH. lia.
Qed.

Lemma fmt_ld_length (n : Z) : (String.length (fmt_ld n) <= 21)%nat.
Proof.
  unfold fmt_ld. destruct (n <? 0); cbn [String.length].
  - pose proof (dec_digits_length 20 (- n) "") as H.
    cbn [String.length] in H. lia.
  - pose proof (dec_digits_length 20 n "") as H.
    cbn [String.length] in H. lia.
Qed.

Ltac unfold_keys :=
  unfold HTTP_ACCEPT_HEADER, HTTP_CONNECTION_HEADER,
    HTTP_CONTENT_LENGTH_HEADER, HTTP_KEEP_ALIVE_HEADER in *.

(** One call of [httpc_set_header] clears the Connection flag exactly
    when it supplies a Connection header, and never sets it. *)
Lemma set_header_connection_flag (line : string) (req : httpc_request) :
  set_connection_header (snd (httpc_set_header true line req))
  = set_connection_header req
    && negb (supplies HTTP_CONNECTION_HEADER (CallSetHeader line)).
Proof.
  unfold httpc_set_header, supplies. unfold_keys.
  destruct (Z.gtb_spec (Z.of_nat (String.length line)) MAX_HEADER_LEN) as [H|H].
  - destruct (Z.leb_spec (Z.of_nat (String.length line)) MAX_HEADER_LEN);
      [lia|]. cbn. now rewrite andb_true_r.
  - destruct (Z.leb_spec (Z.of_nat (String.length line)) MAX_HEADER_LEN);
      [|lia]. cbn [andb].
    destruct (has_key line "Accept:") eqn:EA.
    + rewrite (has_key_disjoint line "A" "C" "ccept:" "onnection:");
        [cbn; now rewrite andb_true_r|discriminate|discriminate|exact EA].
    + destruct (has_key line "Connection:") eqn:EC.
      * cbn. now rewrite andb_false_r.
      * destruct (has_key line "Content-Length:").
        -- destruct (strtol _) as [length end_].
           destruct (negb (at_terminator end_) || (length <? 0));
             cbn; now rewrite andb_true_r.
        -- destruct (has_key line "Keep-Alive:");
             cbn; now rewrite andb_true_r.
Qed.

(** The same for the Keep-Alive flag. *)
Lemma set_header_keep_alive_flag (line : string) (req : httpc_request) :
  set_keep_alive_header (snd (httpc_set_header true line req))
  = set_keep_alive_header req
    && negb (supplies HTTP_KEEP_ALIVE_HEADER (CallSetHeader line)).
Proof.
  unfold httpc_set_header, supplies. unfold_keys.
  destruct (Z.gtb_spec (Z.of_nat (String.length line)) MAX_HEADER_LEN) as [H|H].
  - destruct (Z.leb_spec (Z.of_nat (String.length line)) MAX_HEADER_LEN);
      [lia|]. cbn. now rewrite andb_true_r.
  - destruct (Z.leb_spec (Z.of_nat (String.length line)) MAX_HEADER_LEN);
      [|lia]. cbn [andb].
    destruct (has_key line "Accept:") eqn:EA.
    { rewrite (has_key_disjoint line "A" "K" "ccept:" "eep-Alive:");
        [cbn; now rewrite andb_true_r|discriminate|discriminate|exact EA]. }
    destruct (has_key line "Connection:") eqn:EC.
    { rewrite (has_key_disjoint line "C" "K" "onnection:" "eep-Alive:");
        [cbn; now rewrite andb_true_r|discriminate|discriminate|exact EC]. }
    destruct (has_key line "Content-Length:") eqn:EL.
    { rewrite (has_key_disjoint line "C" "K" "ontent-Length:" "eep-Alive:");
        [|discriminate|discriminate|exact EL].
      destruct (strtol _) as [length end_].
      destruct (negb (at_terminator end_) || (length <? 0));
        cbn; now rewrite andb_true_r. }
    destruct (has_key line "Keep-Alive:");
      cbn; [now rewrite andb_false_r|now rewrite andb_true_r].
Qed.

(** The same for the Accept flag. *)
Lemma set_header_accept_flag (line : string) (req : httpc_request) :
  set_accept_header (snd (httpc_set_header true line req))
  = set_accept_header req
    && negb (supplies HTTP_ACCEPT_HEADER (CallSetHeader line)).
Proof.
  unfold httpc_set_header, supplies. unfold_keys.
  destruct (Z.gtb_spec (Z.of_nat (String.length line)) MAX_HEADER_LEN) as [H|H].
  - destruct (Z.leb_spec (Z.of_nat (String.length line)) MAX_HEADER_LEN);
      [lia|]. cbn. now rewrite andb_true_r.
  - destruct (Z.leb_spec (Z.of_nat (String.length line)) MAX_HEADER_LEN);
      [|lia]. cbn [andb].
    destruct (has_key line "Accept:") eqn:EA;
      [cbn; now rewrite andb_false_r|].
    destruct (has_key line "Connection:");
      [cbn; now rewrite andb_true_r|].
    destruct (has_key line "Content-Length:").
    + destruct (strtol _) as [length end_].
      destruct (negb (at_terminator end_) || (length <? 0));
        cbn; now rewrite andb_true_r.
    + destruct (has_key line "Keep-Alive:");
        cbn; now rewrite andb_true_r.
Qed.

Lemma set_header_keep_alive_timeout (slist_ok : bool) (line : string)
    (req : httpc_request) :
  keep_alive_timeout (snd (httpc_set_header slist_ok line req))
  = keep_alive_timeout req.
Proof.
  unfold httpc_set_header.
  destruct (_ >? MAX_HEADER_LEN); [reflexivity|].
  destruct (has_key line HTTP_ACCEPT_HEADER); [destruct slist_ok; reflexivity|].
  destruct (has_key line HTTP_CONNECTION_HEADER);
    [destruct slist_ok; reflexivity|].
  destruct (has_key line HTTP_CONTENT_LENGTH_HEADER).
  - destruct (strtol _) as [length end_].
    destruct (negb (at_terminator end_) || (length <? 0));
      [|destruct slist_ok]; reflexivity.
  - destruct (has_key line HTTP_KEEP_ALIVE_HEADER);
      destruct slist_ok; reflexivity.
Qed.

Lemma set_keepalive_flags (idle interval : Z) (req : httpc_request) :
  set_accept_header (httpc_set_keepalive idle interval req)
  = set_accept_header req /\
  set_connection_header (httpc_set_keepalive idle interval req)
  = set_connection_header req /\
  set_keep_alive_header (httpc_set_keepalive idle interval req)
  = set_keep_alive_header req.
Proof.
  unfold httpc_set_keepalive.
  destruct ((idle >? 0) && (interval >? 0)); repeat split; reflexivity.
Qed.

(** After the caller's configuration a flag is still set exactly when
    it was set before and the caller supplied no header of that key. *)
Lemma configure_flags (cs : list setup_call) (req : httpc_request) :
  set_accept_header (configure cs req)
  = set_accept_header req && negb (supplied HTTP_ACCEPT_HEADER cs) /\
  set_connection_header (configure cs req)
  = set_connection_header req && negb (supplied HTTP_CONNECTION_HEADER cs) /\
  set_keep_alive_header (configure cs req)
  = set_keep_alive_header req && negb (supplied HTTP_KEEP_ALIVE_HEADER cs).
Proof.
  unfold configure, supplied. revert req.
  induction cs as [|c cs IH]; intros req; cbn [fold_left existsb].
  - cbn. now rewrite !andb_true_r.
  - destruct (IH (setup_step req c)) as (IH0 & IH1 & IH2).
    rewrite IH0, IH1, IH2.
    rewrite !negb_orb, !andb_assoc.
    destruct c as [line|idle interval]; cbn [setup_step].
    + rewrite set_header_accept_flag, set_header_connection_flag,
        set_header_keep_alive_flag.
      repeat split; reflexivity.
    + destruct (set_keepalive_flags idle interval req) as (-> & -> & ->).
      cbn [supplies negb]. now rewrite !andb_true_r.
Qed.

Lemma request_new_flags (method url : string) (req : httpc_request) :
  httpc_request_new true true method url = Ok req ->
  set_connection_header req = true /\ set_keep_alive_header req = true /\
  keep_alive_timeout req = 0 /\ headers req = [].
Proof.
  unfold httpc_request_new. cbn [negb].
  intros H. inversion H; subst; clear H.
  destruct (strcmp method "GET" =? 0); [repeat split; reflexivity|].
  destruct (strcmp method "HEAD" =? 0); [repeat split; reflexivity|].
  destruct ((strcmp method "POST" =? 0) || (strcmp method "PUT" =? 0)
            || negb (strcmp method "PATCH" =? 0));
    repeat split; reflexivity.
Qed.

(** ** Start: the automatic headers *)

(** Reduces the projections of a request built by field updates. *)
Ltac req_simpl :=
  cbn [and_then fst snd
       headers send curl_req status redirect_count reason resp_headers recv
       keep_alive_timeout set_accept_header set_connection_header
       set_keep_alive_header content_length io io_recv io_send io_send_closed
       io_headers_cond easy in_progress code done_handler
       with_headers with_send with_curl_req with_status with_redirect_count
       with_reason with_resp_headers with_recv with_keep_alive_timeout
       with_set_accept_header with_set_connection_header
       with_set_keep_alive_header with_content_length with_io_send_closed
       with_io with_io_recv with_io_send with_io_headers_cond
       with_easy with_in_progress with_code with_done_handler
       curl_easy_call curl_easy_calls] in *.

Lemma set_header_accept_line (req : httpc_request) :
  httpc_set_header true "Accept: */*" req
  = (Ok 0,
     with_headers (headers req ++ ["Accept: */*"])
       (with_set_accept_header false req)).
Proof. reflexivity. Qed.

Lemma set_header_connection_line (b : bool) (req : httpc_request) :
  let line := ("Connection: " ++ (if b then "Keep-Alive" else "close"))%string in
  httpc_set_header true line req
  = (Ok 0,
     with_headers (headers req ++ [line]) (with_set_connection_header false req)).
Proof. destruct b; reflexivity. Qed.

Lemma set_header_keep_alive_line (n : Z) (req : httpc_request) :
  let line := ("Keep-Alive: timeout=" ++ fmt_ld n)%string in
  httpc_set_header true line req
  = (Ok 0,
     with_headers (headers req ++ [line]) (with_set_keep_alive_header false req)).
Proof.
  cbv zeta. unfold httpc_set_header.
  assert (Hlen : (Z.of_nat (String.length
                               ("Keep-Alive: timeout=" ++ fmt_ld n)%string)
                  >? MAX_HEADER_LEN) = false).
  { rewrite string_length_app. pose proof (fmt_ld_length n) as H.
    unfold MAX_HEADER_LEN. cbn [String.length].
    destruct (Z.gtb_spec
                (Z.of_nat (20 + String.length (fmt_ld n))) 8192); [lia|reflexivity]. }
  rewrite Hlen.
  assert (HA : has_key ("Keep-Alive: timeout=" ++ fmt_ld n)%string HTTP_ACCEPT_HEADER
               = false) by reflexivity.
  assert (HC : has_key ("Keep-Alive: timeout=" ++ fmt_ld n)%string
                 HTTP_CONNECTION_HEADER = false) by reflexivity.
  assert (HL : has_key ("Keep-Alive: timeout=" ++ fmt_ld n)%string
                 HTTP_CONTENT_LENGTH_HEADER = false) by reflexivity.
  assert (HK : has_key ("Keep-Alive: timeout=" ++ fmt_ld n)%string
                 HTTP_KEEP_ALIVE_HEADER = true) by reflexivity.
  rewrite HA, HC, HL, HK. reflexivity.
Qed.

(** What the opening of [httpc_request_start] appends, told by the
    flags of the request. *)
Lemma start_headers_by_flags (w : start_world) (req : httpc_request) :
  sw_accept_ok w = true -> sw_connection_ok w = true ->
  sw_keep_alive_ok w = true ->
  let kat := keep_alive_timeout req in
  exists req',
    start_headers w req = (Ok 0, req') /\
    headers req' =
      headers req
      ++ (if set_accept_header req then ["Accept: */*"] else [])
      ++ (if set_connection_header req
          then [("Connection: " ++ (if kat >? 0 then "Keep-Alive" else "close"))%string]
          else [])
      ++ (if set_keep_alive_header req && (kat >? 0)
          then [("Keep-Alive: timeout=" ++ fmt_ld kat)%string] else []).
Proof.
  intros H1 H2 H3.
  destruct req as [hs sd cr st rc rs rh rv kat fa fc fk cl i ir isd isc ihc].
  unfold start_headers. rewrite H1, H2, H3. req_simpl.
  destruct fa;
    [rewrite set_header_accept_line|]; req_simpl;
    (destruct fc;
     [rewrite (set_header_connection_line (kat >? 0))|]; req_simpl;
     (destruct (fk && (kat >? 0));
      [rewrite (set_header_keep_alive_line kat)|]; req_simpl;
      eexists; (split; [reflexivity|]); req_simpl;
      rewrite <- ?app_assoc; cbn [app]; rewrite ?app_nil_r; reflexivity)).
Qed.

Lemma configure_keep_alive_timeout_header (line : string)
    (req : httpc_request) :
  keep_alive_timeout (setup_step req (CallSetHeader line))
  = keep_alive_timeout req.
Proof. apply set_header_keep_alive_timeout. Qed.

(** The header phase of a start after the caller's configuration of a
    new request: which headers it appends, told by what the caller
    supplied. *)
Lemma start_headers_unsupplied (w : start_world)
    (method url : string) (cs : list setup_call) (req0 : httpc_request) :
  httpc_request_new true true method url = Ok req0 ->
  sw_accept_ok w = true -> sw_connection_ok w = true ->
  sw_keep_alive_ok w = true ->
  let req := configure cs req0 in
  let kat := keep_alive_timeout req in
  exists req',
    start_headers w req = (Ok 0, req') /\
    headers req' =
      headers req
      ++ (if set_accept_header req0 && negb (supplied HTTP_ACCEPT_HEADER cs)
          then ["Accept: */*"] else [])
      ++ (if supplied HTTP_CONNECTION_HEADER cs then []
          else [if kat >? 0 then "Connection: Keep-Alive"
                else "Connection: close"])
      ++ (if supplied HTTP_KEEP_ALIVE_HEADER cs then []
          else if kat >? 0 then [("Keep-Alive: timeout=" ++ fmt_ld kat)%string]
               else []).
Proof.
  intros Hnew H1 H2 H3 req kat.
  destruct (request_new_flags _ _ _ Hnew) as (Fc & Fk & _ & _).
  destruct (configure_flags cs req0) as (Ea & Ec & Ek).
  rewrite Fc in Ec. rewrite Fk in Ek. cbn [andb] in Ec, Ek.
  destruct (start_headers_by_flags w req H1 H2 H3) as (req' & Hs & Hh).
  exists req'. split; [exact Hs|]. rewrite Hh. fold kat.
  change (set_accept_header req)
    with (set_accept_header (configure cs req0)).
  change (set_connection_header req)
    with (set_connection_header (configure cs req0)).
  change (set_keep_alive_header req)
    with (set_keep_alive_header (configure cs req0)).
  rewrite Ea, Ec, Ek.
  destruct (supplied HTTP_CONNECTION_HEADER cs),
    (supplied HTTP_KEEP_ALIVE_HEADER cs), (kat >? 0); reflexivity.
Qed.


(** ** Response headers across redirects *)


Lemma last_cons_default (n : Z) (ns : list Z) (d : Z) :
  last (n :: ns) d = last ns n.
Proof.
  revert n d. induction ns as [|m ns IH]; intros n d; [reflexivity|].
  cbn [last]. cbn [last] in IH. destruct ns as [|k ns']; [reflexivity|].
  rewrite (IH m d), (IH m n). reflexivity.
Qed.

(** The other callbacks leave the header region and the stored count
    alone. *)
Lemma write_cb_frame (ok : bool) (chunk : bytes) (req : httpc_request) :
  redirect_count (snd (curl_easy_write_cb ok chunk req)) = redirect_count req /\
  resp_headers (snd (curl_easy_write_cb ok chunk req)) = resp_headers req.
Proof. unfold curl_easy_write_cb. destruct ok; split; reflexivity. Qed.

Lemma read_cb_frame (size : Z) (req : httpc_request) :
  redirect_count (snd (curl_easy_io_read_cb size req)) = redirect_count req /\
  resp_headers (snd (curl_easy_io_read_cb size req)) = resp_headers req.
Proof.
  unfold curl_easy_io_read_cb.
  destruct (_ =? 0); [destruct (io_send_closed req)|]; split; reflexivity.
Qed.

Lemma engine_done_frame (c : CURLcode) (req : httpc_request) :
  redirect_count (engine_done c req) = redirect_count req /\
  resp_headers (engine_done c req) = resp_headers req.
Proof.
  unfold engine_done. destruct (done_handler _); split; reflexivity.
Qed.


Lemma header_counts_app (es1 es2 : list engine_event) :
  header_counts (es1 ++ es2) = header_counts es1 ++ header_counts es2.
Proof.
  induction es1 as [|e es1 IH]; [reflexivity|].
  destruct e; cbn [app header_counts]; now rewrite IH.
Qed.



(** With [assert] compiled out the callbacks always return. *)
Lemma engine_run_returns_ndebug (es : list engine_event)
    (req : httpc_request) :
  exists req', engine_run true es req = Returned req'.
Proof.
  revert req. induction es as [|e es IH]; intros req; cbn [engine_run].
  - now exists req.
  - destruct e as [ok n chunk|ok chunk|size|c]; cbn [engine_step]; try apply IH.
    unfold curl_easy_header_cb. cbn [negb andb].
    destruct (n >? redirect_count req); destruct ok; cbn [negb]; apply IH.
Qed.

(** One header callback on a redirect: the stored count advances and
    the region holds the new chunk alone. *)
Lemma header_cb_on_redirect (ndebug : bool) (n : Z) (chunk : bytes)
    (req : httpc_request) :
  n = redirect_count req + 1 ->
  exists req',
    curl_easy_header_cb ndebug true n chunk req
    = Returned (Z.of_nat (List.length chunk), req') /\
    redirect_count req' = n /\ resp_headers req' = chunk.
Proof.
  intros ->. unfold curl_easy_header_cb.
  destruct (Z.gtb_spec (redirect_count req + 1) (redirect_count req)); [|lia].
  rewrite Z.eqb_refl. cbn [negb andb]. rewrite andb_false_r.
  eexists. split; [reflexivity|]. split; reflexivity.
Qed.



(** ** The assertion of the header callback *)

(** While the engine's count grows by one at most per header callback,
    the stored count never falls behind it and no assertion fails. *)
Lemma engine_run_stepwise (es : list engine_event) (req : httpc_request)
    (prev : Z) :
  prev <= redirect_count req ->
  counts_stepwise prev (header_counts es) ->
  exists req',
    engine_run false es req = Returned req' /\
    last (header_counts es) prev <= redirect_count req'.
Proof.
  revert req prev. induction es as [|e es IH]; intros req prev Hle Hs.
  - exists req. split; [reflexivity|exact Hle].
  - cbn [engine_run].
    destruct e as [ok n chunk|ok chunk|size|c]; cbn [engine_step header_counts].
    + cbn [header_counts] in Hs. destruct Hs as [Hn Hs].
      rewrite last_cons_default.
      unfold curl_easy_header_cb. cbn [negb andb].
      destruct (Z.gtb_spec n (redirect_count req)) as [Hgt|Hngt].
      * assert (E : n = redirect_count req + 1) by lia.
        rewrite <- E, Z.eqb_refl. cbn [negb].
        destruct ok; cbn [negb]; apply IH; req_simpl; (lia || exact Hs).
      * destruct ok; cbn [negb]; apply IH; req_simpl; (lia || exact Hs).
    + destruct (write_cb_frame ok chunk req) as [F _].
      apply IH; [rewrite F; exact Hle|exact Hs].
    + destruct (read_cb_frame size req) as [F _].
      apply IH; [rewrite F; exact Hle|exact Hs].
    + destruct (engine_done_frame c req) as [F _].
      apply IH; [rewrite F; exact Hle|exact Hs].
Qed.

Lemma counts_stepwise_app (prev n : Z) (ns1 ns2 : list Z) :
  counts_stepwise prev (ns1 ++ n :: ns2) ->
  counts_stepwise prev ns1 /\ n <= last ns1 prev + 1.
Proof.
  revert prev. induction ns1 as [|m ns1 IH]; intros prev H.
  - destruct H as [H _]. split; [exact I|exact H].
  - destruct H as [H1 H2]. apply IH in H2 as [H2 H3].
    rewrite last_cons_default. split; [split; assumption|exact H3].
Qed.

(** C9. The assertion of the header callback rests on the engine: when
    its redirect count, which starts at the stored count, grows by one
    at most from one header callback to the next, every callback that
    finds the queried count above the stored one finds it exactly one
    above, and with assertions compiled in no callback fails. *)
Theorem header_assertion_never_fires (es : list engine_event)
    (req0 : httpc_request) :
  counts_stepwise (redirect_count req0) (header_counts es) ->
  (exists req, engine_run false es req0 = Returned req) /\
  (forall pre ok n chunk post req,
     es = pre ++ EvHeader ok n chunk :: post ->
     engine_run false pre req0 = Returned req ->
     n > redirect_count req ->
     n = redirect_count req + 1).
Proof.
  intros Hs. split.
  - destruct (engine_run_stepwise es req0 _ (Z.le_refl _) Hs) as (r & Hr & _).
    now exists r.
  - intros pre ok n chunk post req -> Hrun Hgt.
    rewrite header_counts_app in Hs. cbn [header_counts] in Hs.
    apply counts_stepwise_app in Hs as [Hpre Hn].
    destruct (engine_run_stepwise pre req0 _ (Z.le_refl _) Hpre)
      as (r & Hr & Hlast).
    rewrite Hr in Hrun. inversion Hrun; subst r. lia.
Qed.

Lemma header_assertion_never_fires_witness :
  counts_stepwise (redirect_count request_zero)
    (header_counts redirected_transfer) /\
  exists req, engine_run false redirected_transfer request_zero = Returned req.
Proof.
  assert (Hs : counts_stepwise (redirect_count request_zero)
                 (header_counts redirected_transfer))
    by (cbn; repeat split; lia).
  split; [exact Hs|].
  exact (proj1 (header_assertion_never_fires redirected_transfer request_zero Hs)).
Defined.

(** The assumption is needed: a count that jumps by two fails the
    assertion, and with [assert] compiled out the callback goes on. *)
Example header_assertion_fails_on_jump :
  engine_run false [EvHeader true 2 hop1_status] request_zero = AssertionFailed /\
  exists req,
    engine_run true [EvHeader true 2 hop1_status] request_zero = Returned req /\
    redirect_count req = 2 /\ resp_headers req = hop1_status.
Proof. split; [reflexivity|]. eexists. repeat split. Qed.

(** ** Streaming upload *)

(** The engine never changes the streaming mode of a request, and
    never reopens a closed upload. *)
Lemma engine_step_mode (ndebug : bool) (e : engine_event)
    (req req' : httpc_request) :
  engine_step ndebug e req = Returned req' ->
  io req' = io req /\ io_send req' = io_send req /\
  (io_send_closed req = true -> io_send_closed req' = true).
Proof.
  destruct e as [ok n chunk|ok chunk|size|c]; cbn [engine_step].
  - unfold curl_easy_header_cb.
    destruct (n >? redirect_count req);
      [destruct (negb ndebug && negb (n =? redirect_count req + 1));
       [discriminate|]|];
      destruct ok; cbn [negb]; intros H; inversion H; subst;
      repeat split; try reflexivity; intros; try assumption; try congruence;
      reflexivity.
  - unfold curl_easy_write_cb. destruct ok; cbn [negb snd];
      intros H; inversion H; subst; repeat split; try reflexivity; intros; try assumption; try congruence;
      reflexivity.
  - unfold curl_easy_io_read_cb.
    destruct (_ =? 0); [destruct (io_send_closed req) eqn:Ec|]; cbn [snd];
      intros H; inversion H; subst; repeat split; try reflexivity; intros; try assumption; try congruence;
      reflexivity.
  - unfold engine_done, httpc_curl_done_handler.
    destruct (done_handler _); intros H; inversion H; subst;
      repeat split; try reflexivity; intros; try assumption; try congruence;
      reflexivity.
Qed.

Lemma engine_run_mode (ndebug : bool) (es : list engine_event)
    (req req' : httpc_request) :
  engine_run ndebug es req = Returned req' ->
  io req' = io req /\ io_send req' = io_send req /\
  (io_send_closed req = true -> io_send_closed req' = true).
Proof.
  revert req. induction es as [|e es IH]; intros req; cbn [engine_run].
  - intros H; inversion H; subst. repeat split; auto.
  - destruct (engine_step ndebug e req) as [req1|] eqn:E; [|discriminate].
    intros H. apply IH in H as (H1 & H2 & H3).
    apply engine_step_mode in E as (E1 & E2 & E3).
    repeat split; try congruence. auto.
Qed.

(** The wait loop leaves the streaming mode alone, whatever it
    returns. *)
Lemma io_write_wait_mode (ndebug : bool) (timeout : double) (k : nat) :
  forall (ys : list yield), (List.length ys <= k)%nat ->
  forall (n : Z) (req : httpc_request) res req' ys',
  io_write_wait ndebug timeout n req ys = Some (res, req', ys') ->
  io req' = io req /\ io_send req' = io_send req.
Proof.
  induction k as [|k IH]; intros ys Hk n req res req' ys'.
  - destruct ys; [|cbn in Hk; lia]. cbn [io_write_wait].
    destruct (_ && _); [discriminate|].
    intros H; inversion H; subst; split; reflexivity.
  - destruct ys as [|y1 ys1]; cbn [io_write_wait].
    + destruct (_ && _); [discriminate|].
      intros H; inversion H; subst; split; reflexivity.
    + destruct (in_progress (curl_req req) && negb (n =? 0) && positive timeout);
        [|intros H; inversion H; subst; split; reflexivity].
      destruct (engine_run ndebug (y_events y1) req) as [req1|] eqn:E1;
        [|discriminate].
      apply engine_run_mode in E1 as (A1 & A2 & _).
      destruct (fiber_cond_wait_deadline (y_wake y1));
        [|intros H; inversion H; subst; split; assumption].
      destruct ys1 as [|y2 ys2]; [discriminate|].
      destruct (engine_run ndebug (y_events y2) req1) as [req2|] eqn:E2;
        [|discriminate].
      apply engine_run_mode in E2 as (B1 & B2 & _).
      intros H. apply IH in H; [|cbn in Hk; lia].
      destruct H as [C1 C2]. split; congruence.
Qed.

(** Stalled turns do not end the loop: it goes on from the request
    they leave. *)
Lemma io_write_wait_stalled (ndebug : bool) (timeout : double)
    (turns : list (yield * yield)) (ys : list yield) :
  positive timeout = true ->
  forall req reqk,
  in_progress (curl_req req) = true ->
  ibuf_used (send req) <> 0 ->
  stalled_turns ndebug turns req = Some reqk ->
  io_write_wait ndebug timeout (ibuf_used (send req)) req
    (turns_yields turns ++ ys)
  = io_write_wait ndebug timeout (ibuf_used (send reqk)) reqk ys /\
  in_progress (curl_req reqk) = true /\ ibuf_used (send reqk) <> 0.
Proof.
  intros Ht. induction turns as [|[y1 y2] turns IH]; intros req reqk Hp Hs Hst.
  - cbn in Hst. inversion Hst; subst. cbn [turns_yields app]. auto.
  - cbn [stalled_turns] in Hst. cbn [turns_yields app io_write_wait].
    rewrite Hp, Ht. apply Z.eqb_neq in Hs. rewrite Hs. cbn [negb andb].
    destruct (y_wake y1); try discriminate.
    destruct (engine_run ndebug (y_events y1) req) as [req1|]; [|discriminate].
    cbn [fiber_cond_wait_deadline].
    destruct (engine_run ndebug (y_events y2) req1) as [req2|]; [|discriminate].
    destruct (in_progress (curl_req req2) && negb (ibuf_used (send req2) =? 0))
      eqn:E; [|discriminate].
    apply andb_prop in E as [E1 E2].
    apply negb_true_iff, Z.eqb_neq in E2.
    now apply IH.
Qed.

Lemma ibuf_used_nonempty (b : bytes) : b <> [] -> ibuf_used b <> 0.
Proof. destruct b; [congruence|]. unfold ibuf_used. cbn. lia. Qed.

Lemma io_write_wait_exit (ndebug : bool) (timeout : double) (n : Z)
    (req : httpc_request) (ys : list yield) :
  in_progress (curl_req req) && negb (n =? 0) && positive timeout = false ->
  io_write_wait ndebug timeout n req ys = Some (Ok n, req, ys).
Proof. intros H. destruct ys; cbn [io_write_wait]; now rewrite H. Qed.

(** A write after the transfer ended or after the upload was closed is
    absorbed: nothing is asked of the engine and the task is not
    suspended. *)
Lemma io_write_absorbed (ndebug : bool) (ptr : bytes) (timeout : double)
    (req : httpc_request) (ys : list yield) :
  io req = true -> io_send req = true ->
  in_progress (curl_req req) = false \/ io_send_closed req = true ->
  httpc_request_io_write ndebug ptr timeout req ys = Some (Ok 0, req, ys).
Proof.
  intros Hio Hsend Hc. unfold httpc_request_io_write.
  rewrite Hio, Hsend. cbn [negb].
  destruct Hc as [-> | ->]; cbn [negb orb]; [reflexivity|].
  now rewrite orb_true_r.
Qed.

(** A close that returns with success leaves a request on which every
    further write is absorbed. *)
Lemma io_write_close_then_absorbed (ndebug : bool) (timeout : double)
    (req req1 : httpc_request) (ys ys1 : list yield) (v : Z) :
  httpc_request_io_write ndebug [] timeout req ys = Some (Ok v, req1, ys1) ->
  io req1 = true /\ io_send req1 = true /\
  (in_progress (curl_req req1) = false \/ io_send_closed req1 = true).
Proof.
  unfold httpc_request_io_write.
  destruct (io req) eqn:Hio; cbn [negb]; [|discriminate].
  destruct (io_send req) eqn:Hsend; cbn [negb]; [|discriminate].
  destruct (negb (in_progress (curl_req req)) || io_send_closed req) eqn:Hc.
  - intros H; inversion H; subst. split; [assumption|]. split; [assumption|].
    apply orb_prop in Hc as [Hc|Hc]; [left|right; exact Hc].
    now apply negb_true_iff in Hc.
  - destruct (io_write_wait ndebug timeout (ibuf_used (send req)) req ys)
      as [[[res reqw] ysw]|] eqn:Hw; [|discriminate].
    destruct (io_write_wait_mode ndebug timeout (List.length ys) ys
                (Nat.le_refl _) _ _ _ _ _ Hw) as [M1 M2].
    rewrite Hio in M1. rewrite Hsend in M2.
    destruct res as [n|d]; [|discriminate].
    destruct (n =? 0); cbn [negb].
    + cbn [List.length Z.of_nat Z.gtb Z.compare].
      destruct ysw as [|y ysw']; [discriminate|].
      destruct (engine_run ndebug (y_events y)
                  (curl_easy_call CURLPAUSE_SEND_CONT
                     (with_io_send_closed true reqw))) as [r|] eqn:Hr;
        [|discriminate].
      apply engine_run_mode in Hr as (R1 & R2 & R3).
      specialize (R3 eq_refl). cbn in R1, R2.
      destruct (negb (ibuf_used (send r) =? 0));
        intros H; inversion H; subst; cbn;
        (split; [congruence|]); (split; [congruence|]); right; exact R3.
    + destruct (in_progress (curl_req reqw)) eqn:Hp; [discriminate|].
      intros H; inversion H; subst. auto.
Qed.

(** The refusals and the returns of [httpc_request_io_write] that do
    hold.  It fails with [IllegalParams] on a request that is not
    streaming or whose method has no body.  When the transfer is no
    longer in progress or the upload was closed it returns 0 and leaves
    the request, the engine and the task alone; so after a close that
    returned with success, a repeated close returns 0 and writes
    nothing.  When [send] still holds bytes: the call reports
    [TimedOut] if the deadline has passed at entry, or expires in the
    first wait of a turn of the loop, after any number of turns that
    left the transfer in progress with bytes in [send]; and it returns
    0 if a turn ends with the transfer over and bytes still in [send].
    The last two cases are stated for suspensions in which the second
    wait of every turn, the one without a deadline, is woken. *)
Theorem io_write_refusals_and_timeouts (ndebug : bool) (ptr : bytes)
    (timeout : double) (req : httpc_request) (ys : list yield) :
  let call := httpc_request_io_write ndebug ptr timeout req ys in
  (io req = false \/ io_send req = false ->
   exists msg, call = Some (Fail (IllegalParams msg), req, ys)) /\
  (io req = true -> io_send req = true ->
   in_progress (curl_req req) = false \/ io_send_closed req = true ->
   call = Some (Ok 0, req, ys)) /\
  (forall v req1 ys1 timeout',
     httpc_request_io_write ndebug [] timeout req ys = Some (Ok v, req1, ys1) ->
     httpc_request_io_write ndebug [] timeout' req1 ys1
     = Some (Ok 0, req1, ys1)) /\
  (io req = true -> io_send req = true ->
   in_progress (curl_req req) = true -> io_send_closed req = false ->
   send req <> [] ->
   (positive timeout = false -> call = Some (Fail TimedOut, req, ys)) /\
   (forall turns y ys' reqk req',
      positive timeout = true ->
      ys = turns_yields turns ++ y :: ys' ->
      stalled_turns ndebug turns req = Some reqk ->
      engine_run ndebug (y_events y) reqk = Returned req' ->
      y_wake y = DeadlineExpired ->
      call = Some (Fail TimedOut, req', ys')) /\
   (forall turns y1 y2 ys' reqk req1 req2,
      positive timeout = true ->
      ys = turns_yields turns ++ y1 :: y2 :: ys' ->
      stalled_turns ndebug turns req = Some reqk ->
      y_wake y1 = Signalled ->
      engine_run ndebug (y_events y1) reqk = Returned req1 ->
      engine_run ndebug (y_events y2) req1 = Returned req2 ->
      in_progress (curl_req req2) = false ->
      send req2 <> [] ->
      call = Some (Ok 0, req2, ys'))).
Proof.
  cbv zeta. split; [|split; [|split]].
  - unfold httpc_request_io_write. intros [H|H].
    + rewrite H. cbn [negb]. eexists; reflexivity.
    + rewrite H. destruct (io req); cbn [negb]; eexists; reflexivity.
  - apply io_write_absorbed.
  - intros v req1 ys1 timeout' H.
    apply io_write_close_then_absorbed in H as (H1 & H2 & H3).
    now apply io_write_absorbed.
  - intros Hio Hsend Hp Hc Hs.
    apply ibuf_used_nonempty in Hs.
    unfold httpc_request_io_write. rewrite Hio, Hsend, Hp, Hc.
    cbn [negb orb]. split; [|split].
    + intros Ht. rewrite io_write_wait_exit
        by (rewrite Ht; now rewrite andb_false_r).
      apply Z.eqb_neq in Hs. rewrite Hs. cbn [negb]. now rewrite Hp.
    + intros turns y ys' reqk req' Ht -> Hst Hrun Hw.
      destruct (io_write_wait_stalled ndebug timeout turns (y :: ys') Ht
                  req reqk Hp Hs Hst) as (E & Hpk & Hsk).
      rewrite E. cbn [io_write_wait]. rewrite Hpk, Ht.
      apply Z.eqb_neq in Hsk. rewrite Hsk. cbn [negb andb].
      rewrite Hrun, Hw. reflexivity.
    + intros turns y1 y2 ys' reqk req1 req2 Ht -> Hst Hw Hr1 Hr2 Hp2 Hs2.
      destruct (io_write_wait_stalled ndebug timeout turns (y1 :: y2 :: ys') Ht
                  req reqk Hp Hs Hst) as (E & Hpk & Hsk).
      rewrite E. cbn [io_write_wait]. rewrite Hpk, Ht.
      apply Z.eqb_neq in Hsk. rewrite Hsk. cbn [negb andb].
      rewrite Hr1, Hw. cbn [fiber_cond_wait_deadline]. rewrite Hr2.
      rewrite io_write_wait_exit by (now rewrite Hp2).
      apply ibuf_used_nonempty, Z.eqb_neq in Hs2. rewrite Hs2. cbn [negb].
      now rewrite Hp2.
Qed.

Lemma io_write_refusals_and_timeouts_witness :
  (io request_zero = false /\
   exists msg,
     httpc_request_io_write false two_bytes one_second request_zero []
     = Some (Fail (IllegalParams msg), request_zero, [])) /\
  (io pending_upload = true /\ io_send pending_upload = true /\
   in_progress (curl_req pending_upload) = true /\
   io_send_closed pending_upload = false /\ send pending_upload <> [] /\
   positive one_second = true /\
   stalled_turns false [] pending_upload = Some pending_upload /\
   y_wake idle_timeout = DeadlineExpired /\
   httpc_request_io_write false two_bytes one_second pending_upload
     [idle_timeout]
   = Some (Fail TimedOut, pending_upload, [])).
Proof.
  split.
  - split; [reflexivity|].
    exact (proj1 (io_write_refusals_and_timeouts false two_bytes one_second
                    request_zero []) (or_introl eq_refl)).
  - assert (Hs : send pending_upload <> []) by discriminate.
    repeat (split; [reflexivity || exact Hs|]).
    destruct (io_write_refusals_and_timeouts false two_bytes one_second
                pending_upload [idle_timeout]) as (_ & _ & _ & T).
    destruct (T eq_refl eq_refl eq_refl eq_refl Hs) as (_ & T2 & _).
    exact (T2 [] idle_timeout [] pending_upload pending_upload
             eq_refl eq_refl eq_refl eq_refl eq_refl).
Defined.

(** Once the first wait of a turn was signalled, the call is in the
    wait that has no deadline: if the task is not woken again the call
    does not return, whatever the timeout and whatever the engine did
    during the first wait. *)
Lemma io_write_signalled_then_unbounded (ndebug : bool) (ptr : bytes)
    (timeout : double) (req req1 : httpc_request) (y1 : yield) :
  io req = true -> io_send req = true ->
  in_progress (curl_req req) = true -> io_send_closed req = false ->
  send req <> [] -> positive timeout = true ->
  y_wake y1 = Signalled ->
  engine_run ndebug (y_events y1) req = Returned req1 ->
  httpc_request_io_write ndebug ptr timeout req [y1] = None.
Proof.
  intros Hio Hsend Hp Hc Hs Ht Hw Hrun.
  apply ibuf_used_nonempty, Z.eqb_neq in Hs.
  unfold httpc_request_io_write. rewrite Hio, Hsend, Hp, Hc.
  cbn [negb orb io_write_wait]. rewrite Hp, Hs, Ht. cbn [negb andb].
  rewrite Hrun, Hw. reflexivity.
Qed.

(** C5. With bytes still in [send], a write must report [TimedOut]
    when the deadline expires with the transfer in progress, and
    return 0 when the transfer ended with the bytes still queued.  The
    loop of [httpc_request_io_write] waits twice in each turn, first
    with the deadline and then with none (httpc.c:592 and 595), where
    the loop of [httpc_request_io_read] and the last wait of the write
    itself wait with the deadline only.  [started_upload] is in
    progress with two bytes of its body in [send], and the write has a
    timeout of one second.  If the transfer ends during the first wait,
    the broadcast of the completion handler wakes the call, which then
    waits without a deadline: it does not return, and returns 0 only
    once the task is woken one more time.  If the read callback takes
    one byte and wakes the call, it waits without a deadline as well:
    however that wait ends the call does not return from it, and
    [TimedOut] is reported only by the deadline wait of the next
    turn. *)
Theorem io_write_loop_wait_without_deadline :
  let write := httpc_request_io_write false two_bytes one_second
                 started_upload in
  let ended := engine_done CURLE_OK started_upload in
  let taken := snd (curl_easy_io_read_cb 1 started_upload) in
  (io started_upload = true /\ io_send started_upload = true /\
   in_progress (curl_req started_upload) = true /\
   io_send_closed started_upload = false /\
   send started_upload = [Byte.x62; Byte.x63] /\
   positive one_second = true) /\
  (in_progress (curl_req ended) = false /\
   send ended = [Byte.x62; Byte.x63] /\
   write [engine_completes] = None /\
   forall w : wake,
     write [engine_completes; mk_yield [] w] = Some (Ok 0, ended, [])) /\
  (in_progress (curl_req taken) = true /\
   send taken = [Byte.x63] /\
   write [engine_reads_one] = None /\
   forall w : wake,
     write [engine_reads_one; mk_yield [] w] = None /\
     write [engine_reads_one; mk_yield [] w; idle_timeout]
     = Some (Fail TimedOut, taken, [])).
Proof.
  cbv zeta. split; [|split].
  - repeat split; vm_compute; reflexivity.
  - split; [reflexivity|]. split; [reflexivity|].
    split; [vm_compute; reflexivity|].
    intros w; destruct w; vm_compute; reflexivity.
  - split; [reflexivity|]. split; [reflexivity|].
    split; [vm_compute; reflexivity|].
    intros w; destruct w; split; vm_compute; reflexivity.
Qed.

(** C10. A write of [len > 0] bytes is under way: the loop over the
    earlier bytes has ended with [send] empty, the caller's bytes have
    been copied into [send] and the engine has been asked to resume.
    If the one wait that follows ends with bytes still in [send], the
    call resets [send] and returns 0, whether the deadline expired or
    not and whether the transfer is still in progress or not: it does
    not report [TimedOut], and the bytes left are not in [send] any
    more for the engine to read. *)
Theorem io_write_discards_unsent_bytes (ndebug : bool) (ptr : bytes)
    (timeout : double) (req req1 req2 : httpc_request) (y : yield)
    (ys ys' : list yield) :
  io req = true -> io_send req = true ->
  in_progress (curl_req req) = true -> io_send_closed req = false ->
  ptr <> [] ->
  io_write_wait ndebug timeout (ibuf_used (send req)) req ys
  = Some (Ok 0, req1, y :: ys') ->
  engine_run ndebug (y_events y)
    (curl_easy_call CURLPAUSE_SEND_CONT (with_send ptr (with_send [] req1)))
  = Returned req2 ->
  send req2 <> [] ->
  httpc_request_io_write ndebug ptr timeout req ys
  = Some (Ok 0, with_send [] req2, ys') /\
  send (with_send [] req2) = [] /\
  fst (fst (curl_easy_io_read_cb 1024 (with_send [] req2)))
  = (if io_send_closed req2 then 0 else CURL_READFUNC_PAUSE).
Proof.
  intros Hio Hsend Hp Hc Hptr Hw Hrun Hs.
  split; [|split; [reflexivity|]].
  - unfold httpc_request_io_write. rewrite Hio, Hsend, Hp, Hc.
    cbn [negb orb]. rewrite Hw. cbn [Z.eqb negb].
    assert (Hlen : (Z.of_nat (List.length ptr) >? 0) = true).
    { destruct ptr; [congruence|]. apply Z.gtb_lt. cbn [List.length]. lia. }
    rewrite Hlen, Hrun.
    apply ibuf_used_nonempty, Z.eqb_neq in Hs. rewrite Hs. reflexivity.
  - unfold curl_easy_io_read_cb. cbn.
    destruct (io_send_closed req2); reflexivity.
Qed.

Lemma io_write_discards_unsent_bytes_witness :
  io streaming_post = true /\ io_send streaming_post = true /\
  in_progress (curl_req streaming_post) = true /\
  io_send_closed streaming_post = false /\ two_bytes <> [] /\
  y_wake idle_timeout = DeadlineExpired /\
  exists req2,
    in_progress (curl_req req2) = true /\
    httpc_request_io_write false two_bytes one_second streaming_post
      [idle_timeout]
    = Some (Ok 0, with_send [] req2, []) /\
    send req2 = two_bytes.
Proof.
  assert (Hptr : two_bytes <> []) by discriminate.
  repeat (split; [reflexivity || exact Hptr|]).
  eexists. split; [|split].
  2: { refine (proj1 (io_write_discards_unsent_bytes false two_bytes one_second
                        streaming_post streaming_post _ idle_timeout
                        [idle_timeout] [] eq_refl eq_refl eq_refl eq_refl
                        Hptr eq_refl eq_refl _)).
       discriminate. }
  - reflexivity.
  - reflexivity.
Defined.

(** ** Start: what the engine is given *)

(** Neither the engine nor the completion touches the outgoing headers
    or the options of the handle. *)
Lemma engine_step_config (ndebug : bool) (e : engine_event)
    (req req' : httpc_request) :
  engine_step ndebug e req = Returned req' ->
  headers req' = headers req /\ easy (curl_req req') = easy (curl_req req).
Proof.
  destruct e as [ok n chunk|ok chunk|size|c]; cbn [engine_step].
  - unfold curl_easy_header_cb.
    destruct (n >? redirect_count req);
      [destruct (negb ndebug && negb (n =? redirect_count req + 1));
       [discriminate|]|];
      destruct ok; cbn [negb]; intros H; inversion H; subst;
      split; reflexivity.
  - unfold curl_easy_write_cb. destruct ok; cbn [negb snd];
      intros H; inversion H; subst; split; reflexivity.
  - unfold curl_easy_io_read_cb.
    destruct (_ =? 0); [destruct (io_send_closed req)|]; cbn [snd];
      intros H; inversion H; subst; split; reflexivity.
  - unfold engine_done, httpc_curl_done_handler.
    destruct (done_handler _); intros H; inversion H; subst;
      split; reflexivity.
Qed.

Lemma engine_run_config (ndebug : bool) (es : list engine_event)
    (req req' : httpc_request) :
  engine_run ndebug es req = Returned req' ->
  headers req' = headers req /\ easy (curl_req req') = easy (curl_req req).
Proof.
  revert req. induction es as [|e es IH]; intros req; cbn [engine_run].
  - intros H; inversion H; subst. split; reflexivity.
  - destruct (engine_step ndebug e req) as [req1|] eqn:E; [|discriminate].
    intros H. apply IH in H as [H1 H2].
    apply engine_step_config in E as [E1 E2]. split; congruence.
Qed.

Lemma finish_config (curl_easy_strerror : CURLcode -> string)
    (w : finish_world) (req : httpc_request) (env : httpc_env) :
  let '(_, req', _) := httpc_request_finish curl_easy_strerror w req env in
  headers req' = headers req /\ easy (curl_req req') = easy (curl_req req).
Proof.
  unfold httpc_request_finish, curl_request_finish, classified.
  destruct (fw_mcode w); [|split; reflexivity].
  destruct (fw_errinj w); [split; reflexivity|].
  cbn [code curl_req with_curl_req with_code].
  destruct (fw_code w); try (split; reflexivity).
  cbn [status with_status].
  destruct ((CInt.to_int (fw_response_code w) >=? 100)
            && (CInt.to_int (fw_response_code w) <? 400));
    split; reflexivity.
Qed.

(** Whenever [httpc_request_start] returns after its header phase went
    through, the request it leaves carries the headers of that phase,
    and these are the list given to the engine as [CURLOPT_HTTPHEADER]. *)
Lemma start_publishes_headers (curl_easy_strerror : CURLcode -> string)
    (ndebug : bool) (w : start_world) (timeout : double)
    (req req1 req' : httpc_request) (env env' : httpc_env) (res : result Z) :
  start_headers w req = (Ok 0, req1) ->
  httpc_request_start curl_easy_strerror ndebug w timeout req env
  = Some (res, req', env') ->
  headers req' = headers req1 /\
  In (CURLOPT_HTTPHEADER (headers req1)) (easy (curl_req req')).
Proof.
  intros Hh. unfold httpc_request_start. rewrite Hh.
  set (reqs := curl_easy_calls _ req1).
  assert (Hs : headers reqs = headers req1 /\
               In (CURLOPT_HTTPHEADER (headers req1)) (easy (curl_req reqs))).
  { subst reqs. split; [reflexivity|]. req_simpl.
    rewrite <- !app_assoc. apply in_or_app. right. cbn. auto. }
  clearbody reqs. destruct Hs as [Hs1 Hs2].
  unfold curl_request_start.
  destruct (sw_mcode w).
  2: { intros H; inversion H; subst. split; assumption. }
  destruct (engine_run ndebug (sw_events w) _) as [r1|] eqn:E1; [|discriminate].
  apply engine_run_config in E1 as [A1 A2]. req_simpl.
  assert (Hfin : forall r res req' env',
             headers r = headers req1 ->
             easy (curl_req r) = easy (curl_req reqs) ->
             httpc_request_finish curl_easy_strerror (sw_finish w) r
               (incr_total env) = (res, req', env') ->
             headers req' = headers req1 /\
             In (CURLOPT_HTTPHEADER (headers req1)) (easy (curl_req req'))).
  { intros r res0 req0 env0 B1 B2 Hf.
    pose proof (finish_config curl_easy_strerror (sw_finish w) r
                  (incr_total env)) as F.
    rewrite Hf in F. destruct F as [F1 F2].
    split; [congruence|]. rewrite F2, B2. exact Hs2. }
  destruct (io r1 && in_progress (curl_req r1)).
  - destruct (sw_wait w) as [y|]; [|discriminate].
    destruct (engine_run ndebug (y_events y) r1) as [r2|] eqn:E2;
      [|discriminate].
    apply engine_run_config in E2 as [B1 B2].
    destruct (fiber_cond_wait_deadline (y_wake y)).
    + destruct (io r2 && negb (in_progress (curl_req r2))).
      * intros H. inversion H as [Hf].
        eapply (Hfin r2); [congruence|congruence|exact Hf].
      * intros H; inversion H; subst.
        split; [congruence|]. rewrite B2, A2. exact Hs2.
    + destruct (httpc_request_finish curl_easy_strerror (sw_finish w) r2
                  (incr_total env)) as [[fr freq] fenv] eqn:Hf.
      destruct (Hfin r2 _ _ _ ltac:(congruence) ltac:(congruence) Hf)
        as [C1 C2].
      destruct fr; intros H; inversion H; subst; split; assumption.
  - destruct (io r1 && negb (in_progress (curl_req r1))).
    + intros H. inversion H as [Hf].
      eapply (Hfin r1); [congruence|congruence|exact Hf].
    + intros H; inversion H; subst.
      split; [congruence|]. rewrite A2. exact Hs2.
Qed.

(** C7. A request is created, the caller configures it by calls of
    [httpc_set_header] and [httpc_set_keepalive], and the request is
    started with memory for the list nodes.  Then the start appends
    each automatic header exactly when the caller supplied none of
    that key: the Connection header, as "Connection: Keep-Alive" when
    [keep_alive_timeout > 0] and as "Connection: close" otherwise;
    "Keep-Alive: timeout=<seconds>", and this one only when
    [keep_alive_timeout > 0]; and "Accept: */*" when the creation set
    its flag.  The header phase always goes through, and whenever the
    start returns, the request carries this list and the engine has
    been given it. *)
Theorem start_appends_unsupplied_headers
    (curl_easy_strerror : CURLcode -> string) (ndebug : bool)
    (w : start_world) (timeout : double) (method url : string)
    (cs : list setup_call) (req0 : httpc_request) (env : httpc_env) :
  httpc_request_new true true method url = Ok req0 ->
  sw_accept_ok w = true -> sw_connection_ok w = true ->
  sw_keep_alive_ok w = true ->
  let req := configure cs req0 in
  let kat := keep_alive_timeout req in
  let expected :=
    headers req
    ++ (if set_accept_header req0 && negb (supplied HTTP_ACCEPT_HEADER cs)
        then ["Accept: */*"] else [])
    ++ (if supplied HTTP_CONNECTION_HEADER cs then []
        else [if kat >? 0 then "Connection: Keep-Alive"
              else "Connection: close"])
    ++ (if supplied HTTP_KEEP_ALIVE_HEADER cs then []
        else if kat >? 0 then [("Keep-Alive: timeout=" ++ fmt_ld kat)%string]
             else []) in
  (exists req1, start_headers w req = (Ok 0, req1) /\ headers req1 = expected) /\
  (forall res req' env',
     httpc_request_start curl_easy_strerror ndebug w timeout req env
     = Some (res, req', env') ->
     headers req' = expected /\
     In (CURLOPT_HTTPHEADER expected) (easy (curl_req req'))).
Proof.
  intros Hnew H1 H2 H3 req kat expected.
  destruct (start_headers_unsupplied w method url cs req0 Hnew H1 H2 H3)
    as (req1 & Hs & Hh).
  fold req in Hs, Hh. fold kat in Hh. fold expected in Hh.
  split; [exists req1; split; assumption|].
  intros res req' env' Hstart.
  destruct (start_publishes_headers _ _ _ _ _ _ _ _ _ _ Hs Hstart) as [P1 P2].
  rewrite Hh in P1, P2. split; assumption.
Qed.

Lemma start_appends_unsupplied_headers_witness :
  exists req0 req',
    httpc_request_new true true "GET" "http://localhost/" = Ok req0 /\
    sw_accept_ok (start_world_ok [] None (finished_ok 200)) = true /\
    sw_connection_ok (start_world_ok [] None (finished_ok 200)) = true /\
    sw_keep_alive_ok (start_world_ok [] None (finished_ok 200)) = true /\
    httpc_request_start sample_strerror false
      (start_world_ok [] None (finished_ok 200)) one_second
      (configure sample_setup req0) env_zero
    = Some (Ok 0, req', incr_total env_zero) /\
    headers req' = ["Connection: upgrade"; "Keep-Alive: timeout=60"] /\
    In (CURLOPT_HTTPHEADER ["Connection: upgrade"; "Keep-Alive: timeout=60"])
      (easy (curl_req req')).
Proof.
  destruct (httpc_request_new true true "GET" "http://localhost/")
    as [req0|d] eqn:Hnew; [|vm_compute in Hnew; discriminate Hnew].
  pose proof (proj2 (start_appends_unsupplied_headers sample_strerror false
                       (start_world_ok [] None (finished_ok 200)) one_second
                       "GET" "http://localhost/" sample_setup req0 env_zero
                       Hnew eq_refl eq_refl eq_refl)) as T.
  vm_compute in Hnew. injection Hnew as <-.
  vm_compute in T.
  exists (with_send [] (curl_easy_calls (common_setup "http://localhost/")
            (curl_easy_call (CURLOPT_HTTPGET 1)
               (with_content_length (-1)
                  (with_set_keep_alive_header true
                     (with_set_connection_header true request_zero)))))).
  eexists.
  split; [vm_compute; reflexivity|].
  do 3 (split; [reflexivity|]).
  split; [vm_compute; reflexivity|].
  specialize (T _ _ _ eq_refl). vm_compute in T. vm_compute. exact T.
Defined.

(** ** The body and its Content-Length *)

Lemma digit_val_range (c : ascii) (d : Z) :
  digit_val c = Some d -> 48 <= char_code c <= 57 /\ d = char_code c - 48.
Proof.
  unfold digit_val.
  destruct (Z.leb_spec 48 (char_code c)) as [H1|H1]; cbn [andb];
    [|discriminate].
  destruct (Z.leb_spec (char_code c) 57) as [H2|H2]; [|discriminate].
  intros E. inversion E. lia.
Qed.

Lemma digit_val_digit_char (d : Z) :
  0 <= d <= 9 -> digit_val (digit_char d) = Some d.
Proof.
  intros H.
  assert (C : d = 0 \/ d = 1 \/ d = 2 \/ d = 3 \/ d = 4 \/ d = 5 \/ d = 6 \/
              d = 7 \/ d = 8 \/ d = 9) by lia.
  repeat (destruct C as [->|C]; [reflexivity|]). subst d. reflexivity.
Qed.

(** Reading back the digits of [n]: the value read so far moves up by
    their number of places and [n] is added. *)
Lemma scan_dec_digits (f : nat) :
  forall (n : Z) (acc : string),
  0 <= n < 10 ^ Z.of_nat (S f) ->
  exists k, 0 <= k /\
    forall a, scan_digits (dec_digits (S f) n acc) a
              = scan_digits acc (a * 10 ^ k + n).
Proof.
  induction f as [|f IH]; intros n acc Hn.
  - exists 1. split; [lia|]. intros a.
    change (10 ^ Z.of_nat 1) with 10 in Hn.
    cbn [dec_digits].
    assert (E : n mod 10 = n) by (apply Z.mod_small; lia).
    rewrite E.
    destruct (n / 10 =? 0); cbn [scan_digits];
      rewrite (digit_val_digit_char n) by lia; f_equal; lia.
  - pose proof (Z.mod_pos_bound n 10 ltac:(lia)) as Hm.
    pose proof (Z.div_mod n 10 ltac:(lia)) as Hd.
    change (dec_digits (S (S f)) n acc)
      with (if n / 10 =? 0 then String (digit_char (n mod 10)) acc
            else dec_digits (S f) (n / 10) (String (digit_char (n mod 10)) acc)).
    destruct (Z.eqb_spec (n / 10) 0) as [E|E].
    + exists 1. split; [lia|]. intros a. cbn [scan_digits].
      rewrite (digit_val_digit_char (n mod 10)) by lia. f_equal. lia.
    + assert (Hq : 0 <= n / 10 < 10 ^ Z.of_nat (S f)).
      { split; [apply Z.div_pos; lia|].
        apply Z.div_lt_upper_bound; [lia|].
        replace (10 * 10 ^ Z.of_nat (S f)) with (10 ^ Z.of_nat (S (S f)));
          [lia|].
        rewrite (Nat2Z.inj_succ (S f)), Z.pow_succ_r by lia. reflexivity. }
      destruct (IH (n / 10) (String (digit_char (n mod 10)) acc) Hq)
        as (k & Hk & IHk).
      exists (k + 1). split; [lia|]. intros a. rewrite IHk.
      cbn [scan_digits]. rewrite (digit_val_digit_char (n mod 10)) by lia.
      f_equal. rewrite Z.pow_add_r by lia. lia.
Qed.

Lemma dec_digits_head (f : nat) :
  forall (n : Z) (acc : string),
  0 <= n ->
  exists d rest, 0 <= d <= 9 /\
    dec_digits (S f) n acc = String (digit_char d) rest.
Proof.
  induction f as [|f IH]; intros n acc Hn;
    pose proof (Z.mod_pos_bound n 10 ltac:(lia)) as Hm.
  - exists (n mod 10), acc. split; [lia|].
    cbn [dec_digits]. now destruct (n / 10 =? 0).
  - change (dec_digits (S (S f)) n acc)
      with (if n / 10 =? 0 then String (digit_char (n mod 10)) acc
            else dec_digits (S f) (n / 10) (String (digit_char (n mod 10)) acc)).
    destruct (n / 10 =? 0).
    + exists (n mod 10), acc. split; [lia|reflexivity].
    + apply IH. apply Z.div_pos; lia.
Qed.

(** [strtol] on a space followed by a string that starts with a digit. *)
Lemma strtol_space_digits (s : string) :
  starts_with_digit s = true ->
  strtol (String " " s)
  = (CInt.clamp_long (fst (scan_digits s 0)), snd (scan_digits s 0)).
Proof.
  intros H. unfold strtol.
  change (skip_spaces (String " " s)) with (skip_spaces s).
  destruct s as [|c r]; [discriminate|].
  pose proof H as H0. cbn [starts_with_digit] in H.
  destruct (digit_val c) as [d|] eqn:Ed; [|discriminate].
  apply digit_val_range in Ed as [Hc _].
  assert (Hsp : isspace c = false).
  { unfold isspace.
    destruct (Z.eqb_spec (char_code c) 32); [lia|].
    destruct (Z.leb_spec 9 (char_code c)); [|reflexivity].
    destruct (Z.leb_spec (char_code c) 13); [lia|reflexivity]. }
  cbn [skip_spaces]. rewrite Hsp.
  destruct (Ascii.eqb_spec c "-") as [->|_];
    [exfalso; destruct Hc as [Hc _]; apply Hc; reflexivity|].
  destruct (Ascii.eqb_spec c "+") as [->|_];
    [exfalso; destruct Hc as [Hc _]; apply Hc; reflexivity|].
  rewrite H0.
  destruct (scan_digits (String c r) 0) as [v rest]. reflexivity.
Qed.

(** What [%zu] prints for a size that a [long] holds is read back by
    [strtol] as that size, with nothing left over. *)
Lemma strtol_fmt_zu (n : Z) :
  0 <= n <= CInt.LONG_MAX -> strtol (String " " (fmt_zu n)) = (n, "").
Proof.
  intros Hn. unfold fmt_zu.
  assert (Hlt : 0 <= n < 10 ^ Z.of_nat 20).
  { unfold CInt.LONG_MAX in Hn. change (10 ^ Z.of_nat 20)
      with 100000000000000000000. lia. }
  destruct (dec_digits_head 19 n "" (proj1 Hn)) as (d & rest & Hd & E).
  rewrite strtol_space_digits.
  - destruct (scan_dec_digits 19 n "" Hlt) as (k & _ & Hk).
    rewrite (Hk 0). cbn [scan_digits fst snd]. rewrite Z.mul_0_l, Z.add_0_l.
    rewrite clamp_long_fits; [reflexivity|].
    unfold CInt.fits_long, CInt.LONG_MIN, CInt.LONG_MAX in *. lia.
  - rewrite E. cbn [starts_with_digit].
    now rewrite (digit_val_digit_char d Hd).
Qed.

(** X1. [httpc_set_body] with memory at hand stores the body in [send],
    gives it to the engine with its size, appends the Content-Length
    header of that size, also for an empty body, and records the size
    in [content_length]. *)
Theorem set_body_content_length (body : bytes) (req : httpc_request) :
  let size := Z.of_nat (List.length body) in
  size <= CInt.LONG_MAX ->
  exists req',
    httpc_set_body true true body req = (Ok 0, req') /\
    send req' = body /\
    content_length req' = size /\
    headers req' = headers req ++ [("Content-Length: " ++ fmt_zu size)%string] /\
    easy (curl_req req')
    = easy (curl_req req)
      ++ [CURLOPT_POSTFIELDS body; CURLOPT_POSTFIELDSIZE size].
Proof.
  intros size Hsize. unfold httpc_set_body. fold size. cbn [negb].
  set (r := curl_easy_call _ (curl_easy_call _ _)).
  unfold httpc_set_header.
  assert (Hlen : (Z.of_nat (String.length
                               ("Content-Length: " ++ fmt_zu size)%string)
                  >? MAX_HEADER_LEN) = false).
  { rewrite string_length_app. unfold fmt_zu.
    pose proof (dec_digits_length 20 size "") as H.
    cbn [String.length] in *. unfold MAX_HEADER_LEN.
    destruct (Z.gtb_spec
                (Z.of_nat (16 + String.length (dec_digits 20 size ""))) 8192);
      [lia|reflexivity]. }
  rewrite Hlen.
  assert (HA : has_key ("Content-Length: " ++ fmt_zu size) HTTP_ACCEPT_HEADER
               = false) by reflexivity.
  assert (HC : has_key ("Content-Length: " ++ fmt_zu size)
                 HTTP_CONNECTION_HEADER = false) by reflexivity.
  assert (HL : has_key ("Content-Length: " ++ fmt_zu size)
                 HTTP_CONTENT_LENGTH_HEADER = true) by reflexivity.
  rewrite HA, HC, HL.
  change (advance (strlen HTTP_CONTENT_LENGTH_HEADER)
            ("Content-Length: " ++ fmt_zu size))
    with (String " " (fmt_zu size)).
  rewrite strtol_fmt_zu by (subst size; lia).
  cbn [at_terminator negb orb].
  destruct (Z.ltb_spec size 0); [subst size; lia|].
  eexists. split; [reflexivity|]. subst r. req_simpl.
  repeat split; try reflexivity.
  rewrite <- app_assoc. reflexivity.
Qed.

Lemma set_body_content_length_witness :
  Z.of_nat (List.length (@nil byte)) <= CInt.LONG_MAX /\
  exists req',
    httpc_set_body true true [] request_zero = (Ok 0, req') /\
    content_length req' = 0 /\ headers req' = ["Content-Length: 0"].
Proof.
  assert (H : Z.of_nat (List.length (@nil byte)) <= CInt.LONG_MAX)
    by (cbv; discriminate).
  split; [exact H|].
  destruct (set_body_content_length [] request_zero H)
    as (r & H1 & _ & H3 & H4 & _).
  exists r. repeat split; assumption.
Defined.

(** ** The wait without a deadline *)

(** After the first wait of a turn was signalled, the call is in the
    wait that has no deadline: with nothing to wake it, it does not
    return, whatever the timeout. *)
Example io_write_second_wait_unbounded :
  httpc_request_io_write false two_bytes one_second pending_upload [idle_signal]
  = None.
Proof. reflexivity. Qed.

(** ** Response body: from the engine to the reader *)

Lemma engine_run_app (ndebug : bool) (es1 es2 : list engine_event)
    (req : httpc_request) :
  engine_run ndebug (es1 ++ es2) req
  = match engine_run ndebug es1 req with
    | Returned req1 => engine_run ndebug es2 req1
    | AssertionFailed => AssertionFailed
    end.
Proof.
  revert req. induction es1 as [|e es1 IH]; intros req; cbn [app engine_run].
  - reflexivity.
  - destruct (engine_step ndebug e req); [apply IH|reflexivity].
Qed.

Lemma body_stored_app (es1 es2 : list engine_event) :
  body_stored (es1 ++ es2) = body_stored es1 ++ body_stored es2.
Proof.
  induction es1 as [|e es1 IH]; [reflexivity|].
  destruct e as [ok n chunk|[|] chunk|size|c]; cbn [app body_stored];
    rewrite IH; [| |reflexivity..]; try reflexivity.
  now rewrite app_assoc.
Qed.

Lemma yields_events_app (ys1 ys2 : list yield) :
  yields_events (ys1 ++ ys2) = yields_events ys1 ++ yields_events ys2.
Proof.
  induction ys1 as [|y ys1 IH]; [reflexivity|].
  cbn [app yields_events]. now rewrite IH, app_assoc.
Qed.

Lemma engine_step_body (ndebug : bool) (e : engine_event)
    (req req' : httpc_request) :
  engine_step ndebug e req = Returned req' ->
  recv req' = recv req ++ body_stored [e] /\ io_recv req' = io_recv req.
Proof.
  destruct e as [ok n chunk|ok chunk|size|c]; cbn [engine_step body_stored].
  - unfold curl_easy_header_cb.
    destruct (n >? redirect_count req);
      [destruct (negb ndebug && negb (n =? redirect_count req + 1));
       [discriminate|]|];
      destruct ok; cbn [negb]; intros H; inversion H; subst;
      req_simpl; rewrite app_nil_r; split; reflexivity.
  - unfold curl_easy_write_cb. destruct ok; cbn [negb snd];
      intros H; inversion H; subst; req_simpl; rewrite ?app_nil_r;
      split; reflexivity.
  - unfold curl_easy_io_read_cb.
    destruct (_ =? 0); [destruct (io_send_closed req)|]; cbn [snd];
      intros H; inversion H; subst; req_simpl; rewrite app_nil_r;
      split; reflexivity.
  - unfold engine_done, httpc_curl_done_handler.
    destruct (done_handler _); intros H; inversion H; subst;
      req_simpl; rewrite app_nil_r; split; reflexivity.
Qed.

(** Across any activity of the engine the body region grows by the
    chunks that found memory, in the order of their arrival, and the
    reader's staging buffer is left alone. *)
Lemma engine_run_body (ndebug : bool) (es : list engine_event)
    (req req' : httpc_request) :
  engine_run ndebug es req = Returned req' ->
  recv req' = recv req ++ body_stored es /\ io_recv req' = io_recv req.
Proof.
  revert req. induction es as [|e es IH]; intros req; cbn [engine_run].
  - intros H; inversion H; subst. cbn. now rewrite app_nil_r.
  - destruct (engine_step ndebug e req) as [req1|] eqn:E; [|discriminate].
    intros H. apply IH in H as [H1 H2].
    apply engine_step_body in E as [E1 E2].
    change (e :: es) with ([e] ++ es). rewrite body_stored_app.
    rewrite H1, E1, H2, E2, app_assoc. split; reflexivity.
Qed.

Lemma engine_run_pending (ndebug : bool) (es : list engine_event)
    (req req' : httpc_request) :
  engine_run ndebug es req = Returned req' ->
  pending req' = pending req ++ body_stored es.
Proof.
  intros H. apply engine_run_body in H as [H1 H2].
  unfold pending. now rewrite H1, H2, app_assoc.
Qed.

(** The wait loop of the reader: what it leaves is what the engine made
    of the request during the suspensions it consumed, and on exit the
    two locals are the lengths of the two buffers. *)
Lemma io_read_wait_spec (ndebug : bool) (timeout : double)
    (ys : list yield) :
  forall (req : httpc_request) res req' ys',
  io_read_wait ndebug timeout (ibuf_used (io_recv req))
    (region_used (recv req)) req ys = Some (res, req', ys') ->
  exists consumed,
    ys = consumed ++ ys' /\
    engine_run ndebug (yields_events consumed) req = Returned req' /\
    match res with
    | Ok (ibuf_len, recv_len) =>
        ibuf_len = ibuf_used (io_recv req') /\
        recv_len = region_used (recv req') /\
        (in_progress (curl_req req') && positive timeout
         && (recv_len + ibuf_len =? 0) = false)
    | Fail d => d = TimedOut \/ d = FiberIsCancelled
    end.
Proof.
  induction ys as [|y ys IH]; intros req res req' ys'; cbn [io_read_wait].
  - destruct (_ && _ && _) eqn:E; [discriminate|].
    intros H; inversion H; subst. exists []. repeat split; assumption.
  - destruct (in_progress (curl_req req) && positive timeout
              && (region_used (recv req) + ibuf_used (io_recv req) =? 0))
      eqn:E.
    + destruct (engine_run ndebug (y_events y) req) as [req1|] eqn:E1;
        [|discriminate].
      destruct (y_wake y) eqn:Ew; cbn [fiber_cond_wait_deadline].
      * intros H. apply IH in H as (consumed & -> & Hrun & Hres).
        exists (y :: consumed). split; [reflexivity|].
        split; [|exact Hres].
        cbn [yields_events]. now rewrite engine_run_app, E1.
      * intros H; inversion H; subst. exists [y].
        split; [reflexivity|]. split; [|now left].
        cbn [yields_events]. now rewrite app_nil_r.
      * intros H; inversion H; subst. exists [y].
        split; [reflexivity|]. split; [|now right].
        cbn [yields_events]. now rewrite app_nil_r.
    + intros H; inversion H; subst. exists []. repeat split; assumption.
Qed.

Lemma firstn_all_length (b : bytes) : firstn (Z.to_nat (ibuf_used b)) b = b.
Proof. unfold ibuf_used. rewrite Nat2Z.id. apply firstn_all. Qed.

Lemma skipn_all_length (b : bytes) : skipn (Z.to_nat (ibuf_used b)) b = [].
Proof. unfold ibuf_used. rewrite Nat2Z.id. apply skipn_all. Qed.

Lemma length_firstn_Z (n : Z) (b : bytes) :
  0 <= n -> Z.of_nat (List.length (firstn (Z.to_nat n) b)) = Z.min n (ibuf_used b).
Proof.
  intros H. unfold ibuf_used. rewrite length_firstn. lia.
Qed.

Lemma ibuf_used_zero (b : bytes) : ibuf_used b = 0 -> b = [].
Proof. destruct b; [reflexivity|]. unfold ibuf_used. cbn. lia. Qed.

Lemma ibuf_used_nonneg (b : bytes) : 0 <= ibuf_used b.
Proof. unfold ibuf_used. lia. Qed.

Lemma ibuf_used_app (a b : bytes) :
  ibuf_used (a ++ b) = ibuf_used a + ibuf_used b.
Proof. unfold ibuf_used. rewrite length_app. lia. Qed.

Lemma ibuf_used_firstn (n : Z) (b : bytes) :
  0 <= n -> ibuf_used (firstn (Z.to_nat n) b) = Z.min n (ibuf_used b).
Proof. intros H. unfold ibuf_used at 1. now apply length_firstn_Z. Qed.

(** What one call of [httpc_request_io_read] on a buffer of [len]
    bytes returns, copies out and leaves, in terms of what the request
    held and what arrived while the call waited. *)
Lemma io_read_spec (ndebug : bool) (w : read_world) (len : Z)
    (timeout : double) (req req' : httpc_request) (ys ys' : list yield)
    (res : result Z) (out : bytes) :
  0 <= len ->
  httpc_request_io_read ndebug w len timeout req ys
  = Some (res, out, req', ys') ->
  exists consumed,
    ys = consumed ++ ys' /\
    let arrived := body_stored (yields_events consumed) in
    out ++ pending req' = pending req ++ arrived /\
    match res with
    | Ok n =>
        n = ibuf_used out /\
        n = Z.min len (ibuf_used (pending req ++ arrived)) /\
        (n = 0 -> 0 < len ->
         in_progress (curl_req req') = false \/ positive timeout = false)
    | Fail d => out = [] \/ d = OutOfMemory
    end.
Proof.
  intros Hlen. unfold httpc_request_io_read.
  destruct (io req); cbn [negb].
  2: { intros H; inversion H; subst. exists []. cbn.
       rewrite app_nil_r. auto. }
  destruct (io_read_wait ndebug timeout (ibuf_used (io_recv req))
              (region_used (recv req)) req ys) as [[[wres r] ysr]|] eqn:Hw;
    [|discriminate].
  apply io_read_wait_spec in Hw as (consumed & -> & Hrun & Hres).
  apply engine_run_pending in Hrun.
  destruct wres as [[ibuf_len recv_len]|d].
  2: { intros H; inversion H; subst. exists consumed.
       split; [reflexivity|]. cbn zeta. rewrite <- Hrun. cbn. auto. }
  destruct Hres as (-> & -> & Hexit).
  unfold region_used. fold (ibuf_used (recv r)).
  remember (io_recv r) as I eqn:HI. remember (recv r) as R eqn:HR.
  pose proof (ibuf_used_nonneg I) as HIn.
  pose proof (ibuf_used_nonneg R) as HRn.
  assert (Hp : pending r = I ++ R) by (unfold pending; now subst).
  destruct (Z.eqb_spec (ibuf_used R + ibuf_used I) 0) as [E0|E0].
  { intros H; injection H as <- <- <- <-. exists consumed.
    split; [reflexivity|]. cbn zeta. rewrite <- Hrun. split; [reflexivity|].
    assert (HIe : I = []) by (apply ibuf_used_zero; lia).
    assert (HRe : R = []) by (apply ibuf_used_zero; lia).
    rewrite Hp, HIe, HRe. cbn. split; [reflexivity|]. split; [lia|].
    intros _ _.
    apply andb_false_iff in Hexit as [Hexit|Hexit];
      [apply andb_false_iff in Hexit; exact Hexit|].
    apply Z.eqb_neq in Hexit. exfalso. apply Hexit.
    clear - E0 HI HR. subst I R. unfold region_used, ibuf_used in *. lia. }
  match goal with
  | |- (if negb ?p then _ else _) = _ -> _ => destruct p
  end; cbn [negb].
  2: { intros H; inversion H; subst. exists consumed.
       split; [reflexivity|]. cbn zeta. rewrite <- Hrun. cbn. auto. }
  destruct (Z.ltb_spec (ibuf_used I) len) as [Hlt|Hge].
  - (* the staged bytes do not fill the buffer *)
    assert (Hfull : firstn (Z.to_nat (ibuf_used I)) I = I)
      by apply firstn_all_length.
    assert (Hltb : (ibuf_used I <? len) = true) by (apply Z.ltb_lt; lia).
    rewrite Z.eqb_refl, Hfull, ?Hltb. cbn [andb].
    set (r1 := if ibuf_used I >? 0 then with_io_recv [] r else r).
    assert (Hr1 : io_recv r1 = [] /\ recv r1 = R).
    { subst r1. destruct (Z.gtb_spec (ibuf_used I) 0); req_simpl.
      - split; [reflexivity|now subst].
      - split; [|now subst]. rewrite <- HI. apply ibuf_used_zero. lia. }
    destruct Hr1 as [Hr1 Hr2].
    destruct (Z.gtb_spec (ibuf_used R) 0) as [Hr|Hr].
    + destruct (rw_join_again_ok w); cbn [negb].
      * rewrite Hr1, Hr2. cbn [app].
        set (remain := if len - ibuf_used I >? ibuf_used R
                       then ibuf_used R else len - ibuf_used I).
        assert (Hrem : 0 <= remain <= ibuf_used R /\
                       remain = Z.min (len - ibuf_used I) (ibuf_used R)).
        { subst remain.
          destruct (Z.gtb_spec (len - ibuf_used I) (ibuf_used R)); lia. }
        destruct Hrem as [Hrem Hmin].
        intros H; injection H as <- <- <- <-. exists consumed.
        split; [reflexivity|]. cbn zeta. rewrite <- Hrun.
        split; [|split].
        -- rewrite Hp. unfold pending.
           destruct (Z.gtb_spec (ibuf_used R) remain); req_simpl;
             rewrite ?Hr1, ?app_nil_r, <- ?app_assoc; f_equal.
           ++ apply firstn_skipn.
           ++ assert (Hre : remain = ibuf_used R) by lia.
              rewrite Hre. apply firstn_all_length.
        -- rewrite ibuf_used_app, ibuf_used_firstn by lia. lia.
        -- split; [rewrite Hp, ibuf_used_app; lia|]. intros; lia.
      * intros H; injection H as <- <- <- <-. exists consumed.
        split; [reflexivity|]. cbn zeta. rewrite <- Hrun. split; [|now right].
        rewrite Hp. unfold pending. now rewrite Hr1, Hr2.
    + intros H; injection H as <- <- <- <-. exists consumed.
      split; [reflexivity|]. cbn zeta. rewrite <- Hrun.
      assert (HRe : R = []) by (apply ibuf_used_zero; lia).
      split; [|split].
      * rewrite Hp. unfold pending. rewrite Hr1, Hr2, HRe.
        now rewrite !app_nil_r.
      * reflexivity.
      * split; [rewrite Hp, HRe, app_nil_r; lia|]. intros; lia.
  - (* the staged bytes fill the buffer *)
    rewrite Z.ltb_irrefl. cbn [andb].
    intros H; injection H as <- <- <- <-. exists consumed.
    split; [reflexivity|]. cbn zeta. rewrite <- Hrun.
    split; [|split].
    + rewrite Hp. unfold pending.
      destruct (Z.gtb_spec len 0); [destruct (Z.eqb_spec len (ibuf_used I))|];
        req_simpl; rewrite <- ?HI, <- ?HR.
      * subst len. now rewrite firstn_all_length.
      * now rewrite app_assoc, firstn_skipn.
      * assert (len = 0) by lia. subst len. reflexivity.
    + rewrite ibuf_used_firstn by lia. lia.
    + split; [rewrite Hp, ibuf_used_app; lia|]. intros; lia.
Qed.

(** X8. One call of [httpc_request_io_read] on a buffer of [len] bytes.
    Whatever it returns, the bytes it copied out followed by the bytes
    the request still holds are the bytes the request held followed by
    those that arrived while the call waited: nothing is lost or
    reordered.  On success it returns the number of bytes copied, which
    is [len] or all there was, whichever is less.  A failure has
    copied nothing, unless it is the allocation failure of the second
    join. *)
Theorem io_read_delivers_in_order (ndebug : bool) (w : read_world) (len : Z)
    (timeout : double) (req req' : httpc_request) (ys ys' : list yield)
    (res : result Z) (out : bytes) :
  0 <= len ->
  httpc_request_io_read ndebug w len timeout req ys
  = Some (res, out, req', ys') ->
  exists consumed,
    ys = consumed ++ ys' /\
    let arrived := body_stored (yields_events consumed) in
    out ++ pending req' = pending req ++ arrived /\
    match res with
    | Ok n =>
        n = ibuf_used out /\
        n = Z.min len (ibuf_used (pending req ++ arrived))
    | Fail d => out = [] \/ d = OutOfMemory
    end.
Proof.
  intros Hlen H.
  destruct (io_read_spec _ _ _ _ _ _ _ _ _ _ Hlen H) as (consumed & E & C & R).
  exists consumed. split; [exact E|]. split; [exact C|].
  destruct res as [n|d]; [|exact R]. destruct R as (R1 & R2 & _). now split.
Qed.

(** X9. A call of [httpc_request_io_read] on a buffer that has room returns
    0 only when there is nothing to read: it has copied nothing, the
    request holds no response byte, and the transfer is over or the
    timeout was not positive. *)
Theorem io_read_zero_is_end_of_stream (ndebug : bool) (w : read_world)
    (len : Z) (timeout : double) (req req' : httpc_request)
    (ys ys' : list yield) (out : bytes) :
  0 < len ->
  httpc_request_io_read ndebug w len timeout req ys
  = Some (Ok 0, out, req', ys') ->
  out = [] /\ pending req' = [] /\
  (in_progress (curl_req req') = false \/ positive timeout = false).
Proof.
  intros Hlen H.
  destruct (io_read_spec _ _ _ _ _ _ _ _ _ _ (Z.lt_le_incl _ _ Hlen) H)
    as (consumed & _ & C & R1 & R2 & R3).
  cbv zeta in C, R2.
  assert (Ha : pending req ++ body_stored (yields_events consumed) = []).
  { apply ibuf_used_zero.
    pose proof (ibuf_used_nonneg
                  (pending req ++ body_stored (yields_events consumed))). lia. }
  rewrite Ha in C. apply app_eq_nil in C as [C1 C2].
  split; [exact C1|]. split; [exact C2|]. now apply R3.
Qed.

Lemma io_read_delivers_in_order_witness :
  0 <= 3 /\
  exists req' consumed,
    httpc_request_io_read false plain_read 3 one_second streaming_get
      download_yields
    = Some (Ok 3, firstn 3 chunk_hello, req', skipn 1 download_yields) /\
    download_yields = consumed ++ skipn 1 download_yields /\
    firstn 3 chunk_hello ++ pending req'
    = pending streaming_get ++ body_stored (yields_events consumed).
Proof.
  split; [lia|]. eexists.
  match goal with
  | |- exists c, ?call = ?ret /\ _ =>
      assert (Hrun : call = ret) by (vm_compute; reflexivity)
  end.
  destruct (io_read_delivers_in_order _ _ 3 _ _ _ _ _ _ _ ltac:(lia) Hrun)
    as (consumed & E & C & _).
  exists consumed. split; [exact Hrun|]. split; [exact E|exact C].
Defined.

Lemma io_read_zero_is_end_of_stream_witness :
  0 < 16 /\
  exists req',
    httpc_request_io_read false plain_read 16 one_second streaming_get
      [mk_yield [EvDone CURLE_OK] Signalled]
    = Some (Ok 0, [], req', []) /\
    pending req' = [] /\ in_progress (curl_req req') = false.
Proof.
  split; [lia|]. eexists.
  match goal with
  | |- ?call = ?ret /\ _ =>
      assert (Hrun : call = ret) by (vm_compute; reflexivity)
  end.
  split; [exact Hrun|].
  destruct (io_read_zero_is_end_of_stream _ _ 16 _ _ _ _ _ _ ltac:(lia) Hrun)
    as (_ & P & _).
  split; [exact P|vm_compute; reflexivity].
Defined.

(** X10. A session of reads, with suspensions of the task in between,
    every read having returned with success.  The bytes the reads
    copied out, in the order of the reads, followed by what the
    request still holds, are the bytes the request held at first
    followed by the body bytes the engine delivered meanwhile: the
    reader sees the response body in the order of its arrival, with
    nothing lost or repeated. *)
Theorem read_session_delivers_body (ndebug : bool) (steps : list read_step) :
  forall (req req' : httpc_request) (ys ys' : list yield) (outs : bytes),
  read_lens_ok steps = true ->
  read_session ndebug steps req ys = Some (outs, req', ys') ->
  exists consumed,
    ys = consumed ++ ys' /\
    outs ++ pending req' = pending req ++ body_stored (yields_events consumed).
Proof.
  induction steps as [|step steps IH]; intros req req' ys ys' outs Hok;
    cbn [read_session].
  - intros H; injection H as <- <- <-. exists []. cbn.
    now rewrite app_nil_r.
  - destruct step as [w len timeout|]; cbn [read_lens_ok] in Hok.
    + apply andb_prop in Hok as [Hlen Hok]. apply Z.leb_le in Hlen.
      destruct (httpc_request_io_read ndebug w len timeout req ys)
        as [[[[res out] r1] ys1]|] eqn:Hr; [|discriminate].
      destruct res as [n|d]; [|discriminate].
      destruct (read_session ndebug steps r1 ys1) as [[[outs1 r2] ys2]|] eqn:Hs;
        [|discriminate].
      intros H; injection H as <- <- <-.
      destruct (io_read_spec _ _ _ _ _ _ _ _ _ _ Hlen Hr)
        as (c1 & -> & C1 & _).
      destruct (IH _ _ _ _ _ Hok Hs) as (c2 & -> & C2).
      exists (c1 ++ c2). split; [now rewrite app_assoc|].
      cbv zeta in C1.
      rewrite yields_events_app, body_stored_app, app_assoc, <- C1.
      rewrite <- !app_assoc. f_equal. exact C2.
    + destruct ys as [|y ys1]; [discriminate|].
      destruct (engine_run ndebug (y_events y) req) as [r1|] eqn:Hr;
        [|discriminate].
      intros Hs. destruct (IH _ _ _ _ _ Hok Hs) as (c2 & -> & C2).
      exists (y :: c2). split; [reflexivity|].
      apply engine_run_pending in Hr. rewrite Hr in C2.
      cbn [yields_events]. now rewrite body_stored_app, app_assoc.
Qed.

Lemma read_session_delivers_body_witness :
  read_lens_ok download_session = true /\
  exists req' consumed,
    read_session false download_session streaming_get download_yields
    = Some (chunk_hello ++ chunk_end, req', []) /\
    download_yields = consumed ++ [] /\
    (chunk_hello ++ chunk_end) ++ pending req'
    = pending streaming_get ++ body_stored (yields_events consumed).
Proof.
  split; [reflexivity|]. eexists.
  match goal with
  | |- exists c, ?call = ?ret /\ _ =>
      assert (Hrun : call = ret) by (vm_compute; reflexivity)
  end.
  destruct (read_session_delivers_body false download_session _ _ _ _ _
              eq_refl Hrun)
    as (consumed & E & C).
  exists consumed. split; [exact Hrun|]. split; [exact E|exact C].
Defined.

(** ** Request body: from the writer to the engine *)

Lemma engine_step_upload (ndebug : bool) (e : engine_event)
    (req req' : httpc_request) :
  engine_step ndebug e req = Returned req' ->
  engine_uploaded ndebug [e] req ++ send req' = send req.
Proof.
  cbn [engine_uploaded].
  destruct e as [ok n chunk|ok chunk|size|c]; cbn [engine_step].
  - unfold curl_easy_header_cb.
    destruct (n >? redirect_count req);
      [destruct (negb ndebug && negb (n =? redirect_count req + 1));
       [discriminate|]|];
      destruct ok; cbn [negb]; intros H; inversion H; subst; reflexivity.
  - unfold curl_easy_write_cb. destruct ok; cbn [negb snd];
      intros H; inversion H; subst; reflexivity.
  - intros H; inversion H; subst. unfold curl_easy_io_read_cb.
    destruct (_ =? 0); [destruct (io_send_closed req); reflexivity|].
    cbn [fst snd app]. req_simpl. rewrite app_nil_r. apply firstn_skipn.
  - unfold engine_done, httpc_curl_done_handler.
    destruct (done_handler _); intros H; inversion H; subst; reflexivity.
Qed.

(** The bytes handed over and the bytes left make up [send]. *)
Lemma engine_run_upload (ndebug : bool) (es : list engine_event)
    (req req' : httpc_request) :
  engine_run ndebug es req = Returned req' ->
  engine_uploaded ndebug es req ++ send req' = send req.
Proof.
  revert req. induction es as [|e es IH]; intros req; cbn [engine_run].
  - intros H; inversion H; subst. reflexivity.
  - destruct (engine_step ndebug e req) as [req1|] eqn:E; [|discriminate].
    intros H. pose proof (engine_step_upload _ _ _ _ E) as U.
    cbn [engine_uploaded] in U |- *. rewrite E in U |- *.
    cbn [engine_uploaded] in U. rewrite app_nil_r in U.
    rewrite <- app_assoc, (IH _ H). exact U.
Qed.

(** X4. Across any activity of the engine, the bytes the read callback
    handed over, in the order of the callbacks, followed by what is
    left in [send], are the bytes that were in [send]: the upload
    channel loses, repeats and reorders nothing. *)
Theorem engine_takes_send_in_order (ndebug : bool) (es : list engine_event)
    (req req' : httpc_request) :
  engine_run ndebug es req = Returned req' ->
  engine_uploaded ndebug es req ++ send req' = send req.
Proof. apply engine_run_upload. Qed.

Lemma engine_takes_send_in_order_witness :
  exists req',
    engine_run false (y_events slow_engine) pending_upload = Returned req' /\
    engine_uploaded false (y_events slow_engine) pending_upload ++ send req'
    = send pending_upload.
Proof.
  eexists.
  match goal with
  | |- ?run = ?ret /\ _ =>
      assert (Hrun : run = ret) by (vm_compute; reflexivity)
  end.
  split; [exact Hrun|].
  exact (engine_takes_send_in_order _ _ _ _ Hrun).
Defined.

(** The engine leaves the done handler of a request installed. *)
Lemma engine_run_done_handler (ndebug : bool) (es : list engine_event)
    (req req' : httpc_request) :
  engine_run ndebug es req = Returned req' ->
  done_handler (curl_req req') = done_handler (curl_req req).
Proof.
  revert req. induction es as [|e es IH]; intros req; cbn [engine_run].
  - intros H; inversion H; subst. reflexivity.
  - destruct (engine_step ndebug e req) as [req1|] eqn:E; [|discriminate].
    intros H. rewrite (IH _ H). clear H IH.
    destruct e as [ok n chunk|ok chunk|size|c]; cbn [engine_step] in E.
    + unfold curl_easy_header_cb in E.
      destruct (n >? redirect_count req);
        [destruct (negb ndebug && negb (n =? redirect_count req + 1));
         [discriminate|]|];
        destruct ok; cbn [negb] in E; inversion E; subst; reflexivity.
    + unfold curl_easy_write_cb in E. destruct ok; cbn [negb snd] in E;
        inversion E; subst; reflexivity.
    + unfold curl_easy_io_read_cb in E.
      destruct (_ =? 0); [destruct (io_send_closed req)|]; cbn [snd] in E;
        inversion E; subst; reflexivity.
    + unfold engine_done, httpc_curl_done_handler in E.
      destruct (done_handler _) eqn:Ed; inversion E; subst;
        req_simpl; congruence.
Qed.

(** X6. Once the engine has completed the transfer of a streaming upload
    and so has run the done handler that [httpc_set_io] installed,
    whatever it does afterwards, every write returns 0 at once: the
    request is left as it is, nothing is asked of the engine and the
    task is not suspended. *)
Theorem io_write_after_completion (ndebug : bool)
    (before after : list engine_event) (c : CURLcode)
    (req req' : httpc_request) (ptr : bytes) (timeout : double)
    (ys : list yield) :
  io req = true -> io_send req = true ->
  done_handler (curl_req req) = true ->
  engine_run ndebug (before ++ EvDone c :: after) req = Returned req' ->
  httpc_request_io_write ndebug ptr timeout req' ys = Some (Ok 0, req', ys).
Proof.
  intros Hio Hsend Hdone Hrun.
  pose proof (engine_run_mode _ _ _ _ Hrun) as (M1 & M2 & _).
  rewrite engine_run_app in Hrun.
  destruct (engine_run ndebug before req) as [r1|] eqn:E1; [|discriminate].
  apply engine_run_done_handler in E1. rewrite Hdone in E1.
  cbn [engine_run engine_step] in Hrun.
  apply engine_run_mode in Hrun as (_ & _ & Hclosed).
  apply io_write_absorbed; [congruence|congruence|].
  right. apply Hclosed.
  unfold engine_done, httpc_curl_done_handler. req_simpl.
  rewrite E1. reflexivity.
Qed.

Lemma io_write_after_completion_witness :
  io streaming_post = true /\ io_send streaming_post = true /\
  done_handler (curl_req streaming_post) = true /\
  exists req',
    engine_run false ([EvRead 1024] ++ EvDone CURLE_COULDNT_CONNECT :: [])
      streaming_post = Returned req' /\
    httpc_request_io_write false two_bytes one_second req' [idle_timeout]
    = Some (Ok 0, req', [idle_timeout]).
Proof.
  do 3 (split; [reflexivity|]). eexists.
  match goal with
  | |- ?run = ?ret /\ _ =>
      assert (Hrun : run = ret) by (vm_compute; reflexivity)
  end.
  split; [exact Hrun|].
  exact (io_write_after_completion false [EvRead 1024] [] _ streaming_post _
           two_bytes one_second [idle_timeout] eq_refl eq_refl eq_refl Hrun).
Defined.

(** X5. A write of [len > 0] bytes into an empty [send].  The bytes the
    engine takes during the one wait of the call, followed by what it
    leaves in [send], are the caller's bytes.  The call returns [len]
    exactly when the engine took them all; otherwise it returns 0
    although the engine has taken a part of them, a proper prefix, and
    the rest is dropped from [send]. *)
Theorem io_write_returns_len_iff_all_taken (ndebug : bool) (ptr : bytes)
    (timeout : double) (req req2 : httpc_request) (y : yield)
    (ys' : list yield) :
  io req = true -> io_send req = true ->
  in_progress (curl_req req) = true -> io_send_closed req = false ->
  send req = [] -> ptr <> [] ->
  let staged := curl_easy_call CURLPAUSE_SEND_CONT (with_send ptr req) in
  let taken := engine_uploaded ndebug (y_events y) staged in
  let call := httpc_request_io_write ndebug ptr timeout req (y :: ys') in
  engine_run ndebug (y_events y) staged = Returned req2 ->
  taken ++ send req2 = ptr /\
  (send req2 = [] ->
   call = Some (Ok (Z.of_nat (List.length ptr)), req2, ys') /\ taken = ptr) /\
  (send req2 <> [] ->
   call = Some (Ok 0, with_send [] req2, ys') /\
   (List.length taken < List.length ptr)%nat).
Proof.
  intros Hio Hsend Hp Hc Hs Hptr staged taken call Hrun.
  pose proof (engine_run_upload _ _ _ _ Hrun) as U.
  fold taken in U. change (send staged) with ptr in U.
  assert (Hcall : call =
            if negb (ibuf_used (send req2) =? 0)
            then Some (Ok 0, with_send [] req2, ys')
            else Some (Ok (Z.of_nat (List.length ptr)), req2, ys')).
  { subst call. unfold httpc_request_io_write.
    rewrite Hio, Hsend, Hp, Hc. cbn [negb orb].
    rewrite io_write_wait_exit
      by (rewrite Hs; cbn; now rewrite andb_false_r).
    rewrite Hs. cbn [ibuf_used List.length Z.of_nat Z.eqb negb].
    assert (Hlen : (Z.of_nat (List.length ptr) >? 0) = true).
    { destruct ptr; [congruence|]. apply Z.gtb_lt. cbn [List.length]. lia. }
    rewrite Hlen.
    change (curl_easy_call CURLPAUSE_SEND_CONT (with_send ptr (with_send [] req)))
      with staged.
    now rewrite Hrun. }
  split; [exact U|]. split.
  - intros He. rewrite Hcall, He. cbn. split; [reflexivity|].
    rewrite He, app_nil_r in U. exact U.
  - intros Hne. rewrite Hcall.
    pose proof (ibuf_used_nonempty _ Hne) as Hz. apply Z.eqb_neq in Hz.
    rewrite Hz. cbn [negb].
    split; [reflexivity|].
    rewrite <- U, length_app.
    destruct (send req2); [congruence|]. cbn [List.length]. lia.
Qed.

Lemma io_write_returns_len_iff_all_taken_witness :
  io streaming_post = true /\ io_send streaming_post = true /\
  in_progress (curl_req streaming_post) = true /\
  io_send_closed streaming_post = false /\
  send streaming_post = [] /\ two_bytes <> [] /\
  exists req2,
    engine_run false (y_events slow_engine)
      (curl_easy_call CURLPAUSE_SEND_CONT (with_send two_bytes streaming_post))
    = Returned req2 /\
    send req2 = [] /\
    httpc_request_io_write false two_bytes one_second streaming_post
      [slow_engine]
    = Some (Ok 2, req2, []).
Proof.
  assert (Hptr : two_bytes <> []) by discriminate.
  do 5 (split; [reflexivity|]). split; [exact Hptr|]. eexists.
  match goal with
  | |- ?run = ?ret /\ _ =>
      assert (Hrun : run = ret) by (vm_compute; reflexivity)
  end.
  split; [exact Hrun|]. split; [reflexivity|].
  exact (proj1 (proj1 (proj2 (io_write_returns_len_iff_all_taken false
                                two_bytes one_second streaming_post _
                                slow_engine [] eq_refl eq_refl eq_refl eq_refl
                                eq_refl Hptr Hrun)) eq_refl)).
Defined.

(** ** Header list: all or nothing *)

(** X2. A call of [httpc_set_header] either succeeds, and then the line
    fits the bound and is the new last element of the header list, or
    fails, and then the header list is as before; unless the failure
    is the one of the list allocation, the whole request is as
    before. *)
Theorem set_header_appends_or_leaves (slist_ok : bool) (line : string)
    (req : httpc_request) :
  let r := httpc_set_header slist_ok line req in
  (fst r = Ok 0 /\ headers (snd r) = headers req ++ [line] /\
   Z.of_nat (String.length line) <= MAX_HEADER_LEN) \/
  (exists d, fst r = Fail d /\ headers (snd r) = headers req /\
             (d <> OutOfMemory -> snd r = req)).
Proof.
  cbv zeta. unfold httpc_set_header.
  destruct (Z.gtb_spec (Z.of_nat (String.length line)) MAX_HEADER_LEN)
    as [Hgt|Hle].
  { right. eexists. repeat split. }
  assert (Hok : forall r0 : httpc_request, headers r0 = headers req ->
            (fst (if slist_ok
                  then (Ok 0, with_headers (headers r0 ++ [line]) r0)
                  else (@Fail Z OutOfMemory, r0)) = Ok 0 /\
             headers (snd (if slist_ok
                           then (Ok 0, with_headers (headers r0 ++ [line]) r0)
                           else (@Fail Z OutOfMemory, r0)))
             = headers req ++ [line] /\
             Z.of_nat (String.length line) <= MAX_HEADER_LEN) \/
            (exists d,
               fst (if slist_ok
                    then (Ok 0, with_headers (headers r0 ++ [line]) r0)
                    else (@Fail Z OutOfMemory, r0)) = Fail d /\
               headers (snd (if slist_ok
                             then (Ok 0, with_headers (headers r0 ++ [line]) r0)
                             else (@Fail Z OutOfMemory, r0)))
               = headers req /\
               (d <> OutOfMemory ->
                snd (if slist_ok
                     then (Ok 0, with_headers (headers r0 ++ [line]) r0)
                     else (@Fail Z OutOfMemory, r0)) = req))).
  { intros r0 Hr0. destruct slist_ok; cbn [fst snd].
    - left. req_simpl. rewrite Hr0. auto.
    - right. exists OutOfMemory. repeat split; [exact Hr0|congruence]. }
  destruct (has_key line HTTP_ACCEPT_HEADER); [now apply Hok|].
  destruct (has_key line HTTP_CONNECTION_HEADER); [now apply Hok|].
  destruct (has_key line HTTP_CONTENT_LENGTH_HEADER).
  - destruct (strtol _) as [length end_].
    destruct (negb (at_terminator end_) || (length <? 0)).
    + right. exists bad_content_length. repeat split.
    + now apply Hok.
  - destruct (has_key line HTTP_KEEP_ALIVE_HEADER); now apply Hok.
Qed.

Lemma request_new_method_table_witness :
  cstring "OPTIONS" = true /\
  exists req,
    httpc_request_new true true "OPTIONS" "http://localhost/" = Ok req /\
    easy (curl_req req)
    = post_setup "OPTIONS" ++ common_setup "http://localhost/" /\
    set_accept_header req = true.
Proof.
  split; [reflexivity|].
  destruct (request_new_method_table "OPTIONS" "http://localhost/" eq_refl)
    as (req & H1 & H2 & H3).
  exists req. split; [exact H1|]. split; [exact H2|exact H3].
Defined.

(** ** Statistics of a one-shot request *)

(** [httpc_set_header] touches the header list, the three flags and
    [content_length], and nothing else. *)
Lemma set_header_frame (slist_ok : bool) (line : string)
    (req : httpc_request) :
  let req' := snd (httpc_set_header slist_ok line req) in
  io req' = io req /\ io_send req' = io_send req /\
  io_send_closed req' = io_send_closed req /\
  curl_req req' = curl_req req /\ status req' = status req /\
  send req' = send req /\ recv req' = recv req /\ io_recv req' = io_recv req /\
  keep_alive_timeout req' = keep_alive_timeout req.
Proof.
  cbv zeta. unfold httpc_set_header.
  destruct (_ >? MAX_HEADER_LEN); [repeat split|].
  destruct (has_key line HTTP_ACCEPT_HEADER);
    [destruct slist_ok; repeat split|].
  destruct (has_key line HTTP_CONNECTION_HEADER);
    [destruct slist_ok; repeat split|].
  destruct (has_key line HTTP_CONTENT_LENGTH_HEADER).
  - destruct (strtol _) as [length end_].
    destruct (negb (at_terminator end_) || (length <? 0));
      [|destruct slist_ok]; repeat split.
  - destruct (has_key line HTTP_KEEP_ALIVE_HEADER);
      destruct slist_ok; repeat split.
Qed.

Lemma start_headers_frame (w : start_world) (req : httpc_request) :
  let req' := snd (start_headers w req) in
  io req' = io req /\ curl_req req' = curl_req req /\
  status req' = status req.
Proof.
  cbv zeta. unfold start_headers.
  set (s1 := if set_accept_header req then _ else _).
  assert (F1 : io (snd s1) = io req /\ curl_req (snd s1) = curl_req req /\
               status (snd s1) = status req /\
               keep_alive_timeout (snd s1) = keep_alive_timeout req).
  { subst s1. destruct (set_accept_header req); [|repeat split].
    pose proof (set_header_frame (sw_accept_ok w) "Accept: */*" req) as F.
    cbv zeta in F. tauto. }
  destruct s1 as [[v1|d1] r1]; cbn [and_then snd] in *; [|tauto].
  destruct F1 as (A1 & A2 & A3 & A4).
  set (s2 := if set_connection_header r1 then _ else _).
  assert (F2 : io (snd s2) = io req /\ curl_req (snd s2) = curl_req req /\
               status (snd s2) = status req).
  { subst s2. destruct (set_connection_header r1); [|cbn [snd]; tauto].
    match goal with
    | |- context [httpc_set_header ?ok ?l r1] =>
        pose proof (set_header_frame ok l r1) as F
    end.
    cbv zeta in F. destruct F as (B1 & _ & _ & B4 & B5 & _).
    repeat split; congruence. }
  destruct s2 as [[v2|d2] r2]; cbn [and_then snd] in *; [|tauto].
  destruct F2 as (B1 & B2 & B3).
  destruct (set_keep_alive_header r2 && (keep_alive_timeout r2 >? 0));
    [|cbn [snd]; tauto].
  match goal with
  | |- context [httpc_set_header ?ok ?l r2] =>
      pose proof (set_header_frame ok l r2) as F
  end.
  cbv zeta in F. destruct F as (C1 & _ & _ & C4 & C5 & _).
  repeat split; congruence.
Qed.

Ltac counts :=
  cbn [stat total_requests http_200_responses http_other_responses
       failed_requests incr_failed incr_http_200 incr_http_other incr_total];
  repeat split; try lia; try discriminate; intros; lia.

(** One completion counts at most once, and exactly once when it
    succeeds; [total] is not its business. *)
Lemma finish_counts (curl_easy_strerror : CURLcode -> string)
    (w : finish_world) (req : httpc_request) (env : httpc_env) :
  let '(res, _, env') := httpc_request_finish curl_easy_strerror w req env in
  total_requests (stat env') = total_requests (stat env) /\
  outcomes env <= outcomes env' <= outcomes env + 1 /\
  (forall v, res = Ok v -> outcomes env' = outcomes env + 1).
Proof.
  unfold httpc_request_finish, curl_request_finish, classified, outcomes.
  destruct env as [[t a b c]].
  destruct (fw_mcode w); [|counts].
  destruct (fw_errinj w); [counts|].
  cbn [code curl_req with_curl_req with_code].
  destruct (fw_code w); try counts.
  cbn [status with_status].
  destruct ((CInt.to_int (fw_response_code w) >=? 100)
            && (CInt.to_int (fw_response_code w) <? 400));
    cbn [status with_reason with_status];
    destruct (CInt.to_int (fw_response_code w) =? 200); counts.
Qed.

(** X11. One-shot execution of a request that is not streaming.  When the
    header phase of the start fails, the counters are as before.
    Otherwise [total] has grown by one, and the outcome counters
    together by one at most, by exactly one when the call returns with
    success: a request is never counted twice. *)
Theorem execute_counts_once (curl_easy_strerror : CURLcode -> string)
    (ndebug : bool) (ws : start_world) (wf : finish_world) (timeout : double)
    (req req' : httpc_request) (env env' : httpc_env) (res : result Z) :
  io req = false ->
  httpc_execute curl_easy_strerror ndebug ws wf timeout req env
  = Some (res, req', env') ->
  (forall d r, start_headers ws req = (Fail d, r) -> env' = env) /\
  (forall v r, start_headers ws req = (Ok v, r) ->
     total_requests (stat env') = total_requests (stat env) + 1 /\
     outcomes env <= outcomes env' <= outcomes env + 1 /\
     (forall v', res = Ok v' -> outcomes env' = outcomes env + 1)).
Proof.
  intros Hio. unfold httpc_execute, httpc_request_start.
  pose proof (start_headers_frame ws req) as F. cbv zeta in F.
  destruct (start_headers ws req) as [[v0|d0] r0] eqn:Hh; cbn [snd] in F.
  2: { intros H; inversion H; subst. split; [reflexivity|].
       intros v r Hv. discriminate Hv. }
  destruct F as (F1 & _ & _).
  set (r1 := curl_easy_calls _ r0).
  assert (Hr1 : io r1 = false) by (subst r1; req_simpl; congruence).
  clearbody r1. unfold curl_request_start.
  assert (Hout : outcomes (incr_total env) = outcomes env) by reflexivity.
  assert (Htot : total_requests (stat (incr_total env))
                 = total_requests (stat env) + 1) by reflexivity.
  destruct (sw_mcode ws).
  2: { intros H; inversion H; subst. split; [intros; discriminate|].
       intros v r _. rewrite Htot, Hout.
       repeat split; (lia || discriminate). }
  destruct (engine_run ndebug (sw_events ws) _) as [r2|] eqn:E; [|discriminate].
  apply engine_run_mode in E as (M & _ & _). cbn in M.
  assert (Hr2 : io r2 = false) by congruence.
  rewrite Hr2. cbn [andb].
  pose proof (finish_counts curl_easy_strerror wf r2 (incr_total env)) as C.
  destruct (httpc_request_finish curl_easy_strerror wf r2 (incr_total env))
    as [[fres freq] fenv].
  intros H; inversion H; subst. split; [intros; discriminate|].
  intros v r _. rewrite Htot, Hout in C. exact C.
Qed.

Lemma execute_counts_once_witness :
  exists req req' env',
    httpc_request_new true true "GET" "http://localhost/" = Ok req /\
    io req = false /\
    httpc_execute sample_strerror false refused_start refused_finish
      one_second req env_zero
    = Some (Ok 0, req', env') /\
    status req' = 595 /\
    total_requests (stat env') = 1 /\ outcomes env' = 1.
Proof.
  eexists. eexists. eexists.
  split; [vm_compute; reflexivity|]. split; [reflexivity|].
  match goal with
  | |- ?call = ?ret /\ _ =>
      assert (Hrun : call = ret) by (vm_compute; reflexivity)
  end.
  split; [exact Hrun|]. split; [reflexivity|].
  match type of Hrun with
  | httpc_execute _ _ _ _ _ ?r _ = Some (_, ?r', ?e') =>
      destruct (execute_counts_once sample_strerror false refused_start
                  refused_finish one_second r r' env_zero e' (Ok 0)
                  eq_refl Hrun) as [_ T]
  end.
  match type of Hrun with
  | httpc_execute _ _ ?ws _ _ ?r _ = _ =>
      destruct (start_headers ws r) as [[v|d] r0] eqn:Hh;
        [|vm_compute in Hh; discriminate Hh]
  end.
  destruct (T v r0 eq_refl) as (T1 & _ & T3).
  split; [exact T1|]. exact (T3 0 eq_refl).
Defined.

(** ** Streaming mode *)

Lemma set_io_twice (method : string) (req : httpc_request) :
  io req = true ->
  httpc_set_io method req
  = (Fail (IllegalParams "io: request is already io"), req).
Proof. intros H. unfold httpc_set_io. now rewrite H. Qed.

Lemma io_write_no_body (ndebug : bool) (ptr : bytes) (timeout : double)
    (req : httpc_request) (ys : list yield) :
  io req = true -> io_send req = false ->
  httpc_request_io_write ndebug ptr timeout req ys
  = Some (Fail no_body_to_send, req, ys).
Proof. intros H1 H2. unfold httpc_request_io_write. now rewrite H1, H2. Qed.

(** X12. [httpc_set_io] on a request that is not streaming yet turns the
    streaming mode on and decides the direction by the method: the
    request can upload exactly for POST, PUT and PATCH, and for every
    other method the upload counts as closed from the start, so that
    every write fails with [IllegalParams].  A second call fails with
    [IllegalParams] and changes nothing. *)
Theorem set_io_decides_upload (method : string) (req : httpc_request) :
  cstring method = true -> io req = false ->
  exists req',
    httpc_set_io method req = (Ok 0, req') /\
    io req' = true /\
    io_send req' = MethodSpec.is_post_shaped method /\
    io_send_closed req' = negb (MethodSpec.is_post_shaped method) /\
    done_handler (curl_req req') = true /\
    httpc_set_io method req'
    = (Fail (IllegalParams "io: request is already io"), req') /\
    (MethodSpec.is_post_shaped method = false ->
     forall ndebug ptr timeout ys,
       httpc_request_io_write ndebug ptr timeout req' ys
       = Some (Fail no_body_to_send, req', ys)).
Proof.
  intros Hm Hio. unfold httpc_set_io at 1. rewrite Hio.
  rewrite !strcmp_eqb by (assumption || reflexivity).
  fold (MethodSpec.is_post_shaped method).
  destruct (MethodSpec.is_post_shaped method).
  - destruct (content_length _ >=? 0);
      (eexists; split; [reflexivity|]);
      do 4 (split; [reflexivity|]);
      (split; [apply set_io_twice; reflexivity|intros; discriminate]).
  - eexists. split; [reflexivity|].
    do 4 (split; [reflexivity|]).
    split; [apply set_io_twice; reflexivity|].
    intros _ ndebug ptr timeout ys. now apply io_write_no_body.
Qed.

Lemma set_io_decides_upload_witness :
  cstring "DELETE" = true /\ io request_zero = false /\
  exists req',
    httpc_set_io "DELETE" request_zero = (Ok 0, req') /\
    io_send req' = false /\
    httpc_request_io_write false two_bytes one_second req' []
    = Some (Fail no_body_to_send, req', []).
Proof.
  split; [reflexivity|]. split; [reflexivity|].
  destruct (set_io_decides_upload "DELETE" request_zero eq_refl eq_refl)
    as (req' & H1 & _ & H3 & _ & _ & _ & H7).
  exists req'. split; [exact H1|]. split; [exact H3|].
  apply H7. reflexivity.
Defined.

Lemma configure_io (cs : list setup_call) (req : httpc_request) :
  io (configure cs req) = io req.
Proof.
  unfold configure. revert req.
  induction cs as [|c cs IH]; intros req; cbn [fold_left]; [reflexivity|].
  rewrite IH. destruct c as [line|idle interval]; cbn [setup_step].
  - pose proof (set_header_frame true line req) as F. cbv zeta in F. tauto.
  - unfold httpc_set_keepalive.
    destruct ((idle >? 0) && (interval >? 0)); reflexivity.
Qed.

(** X13. A request as [httpc_request_new] makes it, however the caller sets
    its headers and its keep-alive, is not streaming: reading, writing
    and finishing the stream all fail with [IllegalParams] and leave
    the request, the counters and the task alone. *)
Theorem streaming_calls_need_set_io (curl_easy_strerror : CURLcode -> string)
    (method url : string) (cs : list setup_call) (req0 : httpc_request) :
  httpc_request_new true true method url = Ok req0 ->
  let req := configure cs req0 in
  (forall ndebug w len timeout ys,
     httpc_request_io_read ndebug w len timeout req ys
     = Some (Fail must_be_io, [], req, ys)) /\
  (forall ndebug ptr timeout ys,
     httpc_request_io_write ndebug ptr timeout req ys
     = Some (Fail must_be_io, req, ys)) /\
  (forall ndebug elapsed wf timeout env ys,
     httpc_request_io_finish curl_easy_strerror ndebug elapsed wf timeout
       req env ys
     = Some (Fail must_be_io, req, env, ys)).
Proof.
  intros Hnew req.
  assert (Hio : io req = false).
  { subst req. rewrite configure_io.
    unfold httpc_request_new in Hnew. cbn [negb] in Hnew.
    inversion Hnew; subst; clear Hnew.
    destruct (strcmp method "GET" =? 0); [reflexivity|].
    destruct (strcmp method "HEAD" =? 0); [reflexivity|].
    destruct ((strcmp method "POST" =? 0) || (strcmp method "PUT" =? 0)
              || negb (strcmp method "PATCH" =? 0)); reflexivity. }
  split; [|split]; intros.
  - unfold httpc_request_io_read. now rewrite Hio.
  - unfold httpc_request_io_write. now rewrite Hio.
  - unfold httpc_request_io_finish. now rewrite Hio.
Qed.

Lemma streaming_calls_need_set_io_witness :
  exists req0,
    httpc_request_new true true "POST" "http://localhost/echo" = Ok req0 /\
    httpc_request_io_write false two_bytes one_second
      (configure sample_setup req0) []
    = Some (Fail must_be_io, configure sample_setup req0, []).
Proof.
  eexists.
  match goal with
  | |- ?new = ?ret /\ _ =>
      assert (Hnew : new = ret) by (vm_compute; reflexivity)
  end.
  split; [exact Hnew|].
  exact (proj1 (proj2 (streaming_calls_need_set_io sample_strerror _ _
                         sample_setup _ Hnew))
           false two_bytes one_second []).
Defined.

(** ** Closing a stream *)

(** Only the completion writes [status]: the engine's callbacks and a
    write leave it alone. *)
Lemma engine_run_status (ndebug : bool) (es : list engine_event)
    (req req' : httpc_request) :
  engine_run ndebug es req = Returned req' -> status req' = status req.
Proof.
  revert req. induction es as [|e es IH]; intros req; cbn [engine_run].
  - intros H; inversion H; subst. reflexivity.
  - destruct (engine_step ndebug e req) as [req1|] eqn:E; [|discriminate].
    intros H. rewrite (IH _ H). clear H IH.
    destruct e as [ok n chunk|ok chunk|size|c]; cbn [engine_step] in E.
    + unfold curl_easy_header_cb in E.
      destruct (n >? redirect_count req);
        [destruct (negb ndebug && negb (n =? redirect_count req + 1));
         [discriminate|]|];
        destruct ok; cbn [negb] in E; inversion E; subst; reflexivity.
    + unfold curl_easy_write_cb in E. destruct ok; cbn [negb snd] in E;
        inversion E; subst; reflexivity.
    + unfold curl_easy_io_read_cb in E.
      destruct (_ =? 0); [destruct (io_send_closed req)|]; cbn [snd] in E;
        inversion E; subst; reflexivity.
    + unfold engine_done, httpc_curl_done_handler in E.
      destruct (done_handler _); inversion E; subst; reflexivity.
Qed.

Lemma io_write_wait_status (ndebug : bool) (timeout : double) (k : nat) :
  forall (ys : list yield), (List.length ys <= k)%nat ->
  forall (n : Z) (req : httpc_request) res req' ys',
  io_write_wait ndebug timeout n req ys = Some (res, req', ys') ->
  status req' = status req.
Proof.
  induction k as [|k IH]; intros ys Hk n req res req' ys'.
  - destruct ys; [|cbn in Hk; lia]. cbn [io_write_wait].
    destruct (_ && _); [discriminate|].
    intros H; inversion H; subst; reflexivity.
  - destruct ys as [|y1 ys1]; cbn [io_write_wait].
    + destruct (_ && _); [discriminate|].
      intros H; inversion H; subst; reflexivity.
    + destruct (in_progress (curl_req req) && negb (n =? 0) && positive timeout);
        [|intros H; inversion H; subst; reflexivity].
      destruct (engine_run ndebug (y_events y1) req) as [req1|] eqn:E1;
        [|discriminate].
      apply engine_run_status in E1.
      destruct (fiber_cond_wait_deadline (y_wake y1));
        [|intros H; inversion H; subst; assumption].
      destruct ys1 as [|y2 ys2]; [discriminate|].
      destruct (engine_run ndebug (y_events y2) req1) as [req2|] eqn:E2;
        [|discriminate].
      apply engine_run_status in E2.
      intros H. apply IH in H; [|cbn in Hk; lia]. congruence.
Qed.

Lemma io_write_status (ndebug : bool) (ptr : bytes) (timeout : double)
    (req req' : httpc_request) (ys ys' : list yield) (res : result Z) :
  httpc_request_io_write ndebug ptr timeout req ys = Some (res, req', ys') ->
  status req' = status req.
Proof.
  unfold httpc_request_io_write.
  destruct (negb (io req)); [intros H; inversion H; subst; reflexivity|].
  destruct (negb (io_send req)); [intros H; inversion H; subst; reflexivity|].
  destruct (negb (in_progress (curl_req req)) || io_send_closed req);
    [intros H; inversion H; subst; reflexivity|].
  destruct (io_write_wait ndebug timeout (ibuf_used (send req)) req ys)
    as [[[wres r] ysr]|] eqn:Hw; [|discriminate].
  apply (io_write_wait_status ndebug timeout (List.length ys) ys
           (Nat.le_refl _)) in Hw.
  destruct wres as [n|d]; [|intros H; inversion H; subst; assumption].
  destruct (negb (n =? 0)).
  - destruct (in_progress (curl_req r));
      intros H; inversion H; subst; assumption.
  - destruct ysr as [|y ysr']; [discriminate|].
    match goal with
    | |- context [engine_run ndebug (y_events y) ?staged] =>
        destruct (engine_run ndebug (y_events y) staged) as [r2|] eqn:E;
          [|discriminate];
        apply engine_run_status in E;
        assert (Hst : status staged = status r)
          by (destruct (_ >? 0); reflexivity)
    end.
    destruct (negb (ibuf_used (send r2) =? 0));
      intros H; inversion H; subst; cbn [status with_send]; congruence.
Qed.

(** X14. [httpc_request_io_finish] on a streaming request that has its
    status already: whenever the call returns it reports success,
    also when its closing write has failed, and it leaves the status
    and the counters as they are: the completion is not run, and not
    counted, a second time. *)
Theorem io_finish_when_settled (curl_easy_strerror : CURLcode -> string)
    (ndebug : bool) (elapsed : double) (wf : finish_world) (timeout : double)
    (req req' : httpc_request) (env env' : httpc_env) (ys ys' : list yield)
    (res : result Z) :
  io req = true -> status req <> 0 ->
  httpc_request_io_finish curl_easy_strerror ndebug elapsed wf timeout
    req env ys = Some (res, req', env', ys') ->
  res = Ok 0 /\ env' = env /\ status req' = status req.
Proof.
  intros Hio Hst. unfold httpc_request_io_finish. rewrite Hio. cbn [negb].
  destruct (in_progress (curl_req req) && negb (io_send_closed req)).
  - destruct (httpc_request_io_write ndebug []
                (if positive timeout then timeout else 0%Q) req ys)
      as [[[wres r] ysr]|] eqn:Hw; [|discriminate].
    apply io_write_status in Hw.
    set (r1 := match wres with
               | Ok v => if v =? 0 then with_io_send_closed true r else r
               | Fail _ => r
               end).
    assert (Hr1 : status r1 = status req).
    { subst r1. destruct wres as [v|d]; [destruct (v =? 0)|]; exact Hw. }
    destruct (Z.eqb_spec (status r1) 0) as [E|E]; [congruence|].
    intros H; inversion H; subst. auto.
  - destruct (Z.eqb_spec (status req) 0) as [E|E]; [congruence|].
    intros H; inversion H; subst. auto.
Qed.

Lemma io_finish_when_settled_witness :
  io settled_upload = true /\ status settled_upload <> 0 /\
  httpc_request_io_write false [] one_second settled_upload [idle_timeout]
  = Some (Fail TimedOut, settled_upload, []) /\
  exists res req' env' ys',
    httpc_request_io_finish sample_strerror false one_second (finished_ok 200)
      one_second settled_upload env_zero [idle_timeout]
    = Some (res, req', env', ys') /\
    res = Ok 0 /\ env' = env_zero /\ status req' = status settled_upload.
Proof.
  assert (Hst : status settled_upload <> 0) by discriminate.
  split; [reflexivity|]. split; [exact Hst|].
  split; [vm_compute; reflexivity|].
  do 4 eexists.
  match goal with
  | |- ?call = ?ret /\ _ =>
      assert (Hrun : call = ret) by (vm_compute; reflexivity)
  end.
  split; [exact Hrun|].
  exact (io_finish_when_settled sample_strerror false one_second
           (finished_ok 200) one_second settled_upload _ env_zero _
           [idle_timeout] _ _ eq_refl Hst Hrun).
Defined.

(** ** Keep-alive *)

Lemma configure_keep_alive_timeout (cs : list setup_call)
    (req : httpc_request) :
  keep_alive_timeout (configure cs req)
  = keepalive_of cs (keep_alive_timeout req).
Proof.
  unfold configure. revert req.
  induction cs as [|c cs IH]; intros req; cbn [fold_left keepalive_of];
    [reflexivity|].
  rewrite IH. destruct c as [line|idle interval]; cbn [setup_step].
  - now rewrite set_header_keep_alive_timeout.
  - unfold httpc_set_keepalive.
    destruct ((idle >? 0) && (interval >? 0)); reflexivity.
Qed.

(** X15. Keep-alive of a new request whose caller sets no Connection and no
    Keep-Alive header of his own.  The idle time in force at the start
    is that of the last call of [httpc_set_keepalive] with both
    arguments positive; a call with a zero or negative argument changes
    nothing, so it does not turn keep-alive off again.  With an idle
    time in force the start announces "Connection: Keep-Alive" and
    "Keep-Alive: timeout=<idle>", and "Connection: close" otherwise. *)
Theorem keepalive_follows_last_effective_call (w : start_world)
    (method url : string) (cs : list setup_call) (req0 : httpc_request) :
  httpc_request_new true true method url = Ok req0 ->
  sw_accept_ok w = true -> sw_connection_ok w = true ->
  sw_keep_alive_ok w = true ->
  supplied HTTP_CONNECTION_HEADER cs = false ->
  supplied HTTP_KEEP_ALIVE_HEADER cs = false ->
  let req := configure cs req0 in
  let idle := keepalive_of cs 0 in
  keep_alive_timeout req = idle /\
  exists req1 accept,
    start_headers w req = (Ok 0, req1) /\
    (accept = [] \/ accept = ["Accept: */*"]) /\
    headers req1 =
      headers req ++ accept
      ++ (if idle >? 0
          then ["Connection: Keep-Alive";
                ("Keep-Alive: timeout=" ++ fmt_ld idle)%string]
          else ["Connection: close"]).
Proof.
  intros Hnew H1 H2 H3 Hc Hk req idle.
  destruct (request_new_flags _ _ _ Hnew) as (_ & _ & K0 & _).
  assert (Hidle : keep_alive_timeout req = idle).
  { subst req idle. now rewrite configure_keep_alive_timeout, K0. }
  split; [exact Hidle|].
  destruct (start_headers_unsupplied w method url cs req0 Hnew H1 H2 H3)
    as (req1 & Hs & Hh).
  fold req in Hs, Hh. rewrite Hidle, Hc, Hk in Hh.
  exists req1.
  exists (if set_accept_header req0 && negb (supplied HTTP_ACCEPT_HEADER cs)
          then ["Accept: */*"] else []).
  split; [exact Hs|]. split; [destruct (_ && _); auto|].
  rewrite Hh. destruct (idle >? 0); reflexivity.
Qed.

Lemma keepalive_follows_last_effective_call_witness :
  exists req0 req1 accept,
    httpc_request_new true true "GET" "http://localhost/" = Ok req0 /\
    supplied HTTP_CONNECTION_HEADER keepalive_then_zero = false /\
    supplied HTTP_KEEP_ALIVE_HEADER keepalive_then_zero = false /\
    keep_alive_timeout (configure keepalive_then_zero req0) = 60 /\
    start_headers (start_world_ok [] None (finished_ok 200))
      (configure keepalive_then_zero req0) = (Ok 0, req1) /\
    headers req1 =
      headers (configure keepalive_then_zero req0) ++ accept
      ++ ["Connection: Keep-Alive"; "Keep-Alive: timeout=60"].
Proof.
  eexists.
  match goal with
  | |- exists r a, ?new = ?ret /\ _ =>
      assert (Hnew : new = ret) by (vm_compute; reflexivity)
  end.
  destruct (keepalive_follows_last_effective_call
              (start_world_ok [] None (finished_ok 200)) _ _
              keepalive_then_zero _ Hnew eq_refl eq_refl eq_refl
              eq_refl eq_refl) as (Hk & req1 & accept & Hs & _ & Hh).
  exists req1, accept. split; [exact Hnew|]. do 2 (split; [reflexivity|]).
  split; [exact Hk|]. split; [exact Hs|exact Hh].
Defined.

(** ** Response body in the region *)

(** X7. Across any activity of the engine the write callback appends the
    body chunks to [recv] in the order of their arrival, leaving out
    exactly those for which the region found no memory, and nothing
    else changes [recv]; the reader's staging buffer is not
    touched. *)
Theorem body_accumulates_in_order (ndebug : bool) (es : list engine_event)
    (req req' : httpc_request) :
  engine_run ndebug es req = Returned req' ->
  recv req' = recv req ++ body_stored es /\ io_recv req' = io_recv req.
Proof. apply engine_run_body. Qed.

Lemma body_accumulates_in_order_witness :
  exists req',
    engine_run false (yields_events download_yields) streaming_get
    = Returned req' /\
    recv req' = recv streaming_get ++ body_stored (yields_events download_yields).
Proof.
  eexists.
  match goal with
  | |- ?run = ?ret /\ _ =>
      assert (Hrun : run = ret) by (vm_compute; reflexivity)
  end.
  split; [exact Hrun|].
  exact (proj1 (body_accumulates_in_order _ _ _ _ Hrun)).
Defined.
